(** * agent-loop: the session orchestration engine

    A shallow embedding of [src/index.ts] (the three-phase harness, and the
    earlier two-phase harness kept in [Module TwoPhase]) and of the prompt
    providers under [src/prompts/].  An intermediate revision of the
    three-phase harness differs from the one embedded here in what it
    prints only: escape codes instead of picocolors, and tool results in
    verbose mode only, as JSON text cut at 200 characters.

    JavaScript values are dynamically typed; the harness relies on that in
    its tool-result display code, so values are embedded as an inductive
    type and property reads, truthiness and string conversion are written
    out.  What belongs to the JavaScript engine and to the outside world
    (numbers, [JSON.parse], the file system, the agent SDK) is an interface
    ([Class]); the statements hold for every implementation of it. *)

From Stdlib Require Import String Ascii List ZArith Bool Arith Lia Permutation.
From Stdlib Require Import DecimalString.
Import ListNotations.
Local Open Scope string_scope.
Local Open Scope list_scope.

Set Implicit Arguments.
Set Warnings "-register-all".

(** ** Strings

    A JavaScript string is a sequence of code units; it is embedded as a Rocq
    [string], one [ascii] per code unit. *)

Definition dq : string := String "034"%char EmptyString.

(** The line feed, [\n] in the source. *)
Definition nl : string := String "010"%char EmptyString.

(** [quoted s] is [s] between two double-quote characters. *)
Definition quoted (s : string) : string := (dq ++ s ++ dq)%string.

(** [s.includes(sub)] *)
Definition includes (s sub : string) : bool :=
  match index 0 sub s with
  | Some _ => true
  | None => false
  end.

(** [s.slice(0, n)] for a non-negative [n] *)
Definition slice0 (n : nat) (s : string) : string := substring 0 n s.

(** [n] times the character [c] *)
Fixpoint replicate (n : nat) (c : ascii) : string :=
  match n with
  | O => EmptyString
  | S n => String c (replicate n c)
  end.

(** [xs.join(sep)] on strings *)
Fixpoint join (sep : string) (xs : list string) : string :=
  match xs with
  | [] => ""
  | [x] => x
  | x :: rest => (x ++ sep ++ join sep rest)%string
  end.

(** ** Numbers

    JavaScript numbers are IEEE doubles.  The harness only tests them for
    truthiness, prints them and compares them with a length cap, so they are
    left to the engine. *)

Class Numbers : Type := {
  number : Type;
  (** [!x]: true for [+0], [-0] and [NaN] *)
  number_falsy : number -> bool;
  (** [String(x)] *)
  number_toString : number -> string;
  (** [x > n] for a non-negative integer [n] *)
  number_gt : number -> nat -> bool;
  (** [s > n]: the string converted to a number, compared with [n] *)
  string_gt : string -> nat -> bool
}.

(** ** Values *)

Section Values.
Context {N : Numbers}.

Inductive value : Type :=
| VUndefined
| VNull
| VBool (b : bool)
| VNum (x : number)
| VStr (s : string)
| VArr (items : list value)
| VObj (fields : list (string * value)).

(** What a [throw] carries: an [Error] instance with its message and stack,
    or any other value. *)
Inductive thrown : Type :=
| ErrorInstance (message : string) (stack : option string)
| NonError (v : value).

(** An expression returns a value or throws. *)
Inductive result (A : Type) : Type :=
| Ok (a : A)
| Throw (e : thrown).

Arguments Ok {A} a.
Arguments Throw {A} e.

Definition rbind {A B} (c : result A) (k : A -> result B) : result B :=
  match c with
  | Ok a => k a
  | Throw e => Throw e
  end.

(** A statement returns, throws, or ends the process ([process.exit]). *)
Inductive outcome (A : Type) : Type :=
| Returns (a : A)
| Throws (e : thrown)
| Exits (code : Z).

Arguments Returns {A} a.
Arguments Throws {A} e.
Arguments Exits {A} code.

End Values.

Arguments Ok {N A} a.
Arguments Throw {N A} e.
Arguments Returns {N A} a.
Arguments Throws {N A} e.
Arguments Exits {N A} code.

Notation "'let!' x ':=' c 'in' k" := (rbind c (fun x => k))
  (at level 10, x name, c at level 100, k at level 200).

(** ** Reading values *)

Section Operations.
Context {N : Numbers}.

(** The [TypeError] the engine raises at a property read or a call that is
    not allowed.  The engine words the message and the stack; [what], which
    names the site, stands for them. *)
Definition TypeError (what : string) : thrown :=
  ErrorInstance what (Some ("TypeError: " ++ what)%string).

(** The [SyntaxError] of [JSON.parse]. *)
Definition SyntaxError : thrown :=
  ErrorInstance "JSON Parse error" (Some "SyntaxError: JSON Parse error").

(** [!!v] *)
Definition truthy (v : value) : bool :=
  match v with
  | VUndefined | VNull => false
  | VBool b => b
  | VNum x => negb (number_falsy x)
  | VStr s => negb (s =? "")%string
  | VArr _ | VObj _ => true
  end.

(** The own property [k] of an object built by [JSON.parse]; [undefined]
    when there is none. *)
Fixpoint lookup (k : string) (fields : list (string * value)) : value :=
  match fields with
  | [] => VUndefined
  | (k', v) :: rest => if (k =? k')%string then v else lookup k rest
  end.

Definition has_key (k : string) (fields : list (string * value)) : bool :=
  existsb (fun kv => (k =? fst kv)%string) fields.

(** [v.k] for a key [k] that no built-in prototype defines ([output],
    [text], [passes], [features]): an own property of an object,
    [undefined] on arrays and primitives, a [TypeError] on [null] and
    [undefined]. *)
Definition get (v : value) (k : string) : result value :=
  match v with
  | VUndefined | VNull =>
      Throw (TypeError ("cannot read property " ++ k)%string)
  | VObj fields => Ok (lookup k fields)
  | VBool _ | VNum _ | VStr _ | VArr _ => Ok VUndefined
  end.

(** [v?.k] *)
Definition get_opt (v : value) (k : string) : result value :=
  match v with
  | VUndefined | VNull => Ok VUndefined
  | _ => get v k
  end.

(** [xs[0]] on an array *)
Definition first (items : list value) : value :=
  match items with
  | [] => VUndefined
  | x :: _ => x
  end.

(** [String(v)] and [[""] + v]: primitives print as themselves; an array
    joins its items with commas, [null] items printing empty; an object
    prints as [[object Object]] unless it has an own [toString] property,
    which after [JSON.parse] is never callable, and then the conversion
    throws. *)
Fixpoint ToString (v : value) : result string :=
  match v with
  | VUndefined => Ok "undefined"
  | VNull => Ok "null"
  | VBool true => Ok "true"
  | VBool false => Ok "false"
  | VNum x => Ok (number_toString x)
  | VStr s => Ok s
  | VArr items =>
      let! parts :=
        (fix each (l : list value) : result (list string) :=
           match l with
           | [] => Ok []
           | x :: rest =>
               let! s := match x with
                         | VUndefined | VNull => Ok ""
                         | _ => ToString x
                         end in
               let! ss := each rest in
               Ok (s :: ss)
           end) items in
      Ok (join "," parts)
  | VObj fields =>
      if has_key "toString" fields
      then Throw (TypeError "cannot convert object to primitive value")
      else Ok "[object Object]"
  end.

(** [v > n] for a non-negative integer [n] *)
Definition gt (v : value) (n : nat) : result bool :=
  match v with
  | VUndefined | VNull => Ok false
  | VBool b => Ok (b && (n =? 0)%nat)
  | VNum x => Ok (number_gt x n)
  | VStr s => Ok (string_gt s n)
  | VArr _ | VObj _ => let! s := ToString v in Ok (string_gt s n)
  end.

(** [v.length > n] *)
Definition length_gt (v : value) (n : nat) : result bool :=
  match v with
  | VUndefined | VNull => Throw (TypeError "cannot read property length")
  | VStr s => Ok (n <? String.length s)%nat
  | VArr items => Ok (n <? List.length items)%nat
  | VObj fields => gt (lookup "length" fields) n
  | VBool _ | VNum _ => Ok false
  end.

(** [v.slice(0, n) + "..."] *)
Definition slice_ellipsis (v : value) (n : nat) : result value :=
  match v with
  | VStr s => Ok (VStr (slice0 n s ++ "...")%string)
  | VArr items =>
      let! s := ToString (VArr (firstn n items)) in
      Ok (VStr (s ++ "...")%string)
  | VUndefined | VNull => Throw (TypeError "cannot read property slice")
  | VBool _ | VNum _ | VObj _ => Throw (TypeError "resultStr.slice is not a function")
  end.

End Operations.

(** ** The engine's JSON built-ins *)

Class Engine {N : Numbers} : Type := {
  (** [JSON.parse(text)]; [None] when it throws its [SyntaxError] *)
  JSON_parse : string -> option value;
  (** [JSON.stringify(v)]; [None] when the result is [undefined] *)
  JSON_stringify : value -> option string
}.

(** ** Messages of the agent SDK

    The members of the SDK's message union, with the fields the harness
    reads. *)

Section Messages.
Context {N : Numbers}.

(** A content block of an assistant or a user message. *)
Inductive block : Type :=
| text_block (text : string)
| tool_use (name : string) (input : value)
| tool_result (content : value)
| other_block (type : string).

(** [content] is the top-level [content] property the two-phase harness
    looks for, when there is one and it is a string; [message_content] is
    [message.message.content] when it is a list of blocks, [None] when
    [message.message?.content] is falsy.  A user message whose content is a
    string has no block with a [type]; it is [Some []]. *)
Inductive SDKMessage : Type :=
| system_message (subtype session_id model : string) (tools : list string)
| assistant_message (content : option string)
    (message_content : option (list block))
| user_message (message_content : option (list block))
| result_message (subtype : string) (num_turns total_cost_usd : number)
    (errors : option (list string))
| tool_progress_message (tool_name : string) (elapsed_time_seconds : number)
| stream_event_message (event_type : string)
| other_message (type : string) (subtype : option string).

(** [message.type] *)
Definition type_of (m : SDKMessage) : string :=
  match m with
  | system_message _ _ _ _ => "system"
  | assistant_message _ _ => "assistant"
  | user_message _ => "user"
  | result_message _ _ _ _ => "result"
  | tool_progress_message _ _ => "tool_progress"
  | stream_event_message _ => "stream_event"
  | other_message type _ => type
  end.

(** [message.subtype] when ["subtype" in message] *)
Definition subtype_of (m : SDKMessage) : option string :=
  match m with
  | system_message subtype _ _ _ => Some subtype
  | result_message subtype _ _ _ => Some subtype
  | other_message _ subtype => subtype
  | _ => None
  end.

(** What the SDK hands over while a session runs: a message pulled by the
    [for await] loop, or a chunk for the [stderr] sink. *)
Inductive item : Type :=
| message (m : SDKMessage)
| stderr_data (data : string).

(** The lazy sequence of one agent session: its items, and how it ends,
    [None] for a normal end and [Some e] when pulling the next message
    throws [e].  A session that cannot be established is a stream with no
    item that throws at the first pull. *)
Record stream : Type := {
  items : list item;
  ending : option thrown
}.

(** The argument of the SDK's [query]. *)
Record Query : Type := {
  prompt : string;
  cwd : string;
  model : option string;
  permissionMode : string;
  allowDangerouslySkipPermissions : bool;
  persistSession : option bool;
  sandbox_enabled : option bool;
  settingSources : option (list string);
  systemPrompt_append : option string;
  allowedTools : option (list string);
  disallowedTools : list string;
  mcpServers : list (string * (string * list string));
  stderr : bool
}.

(** ** Console output

    Template literals are kept as their pieces: the literal text is the
    source's, the interpolated values are not formatted. *)

(** A JavaScript number that holds an integer, or [NaN]. *)
Inductive jsint : Type :=
| NaN
| Int (z : Z).

Inductive color : Type := dim | yellow | magenta | green | red | cyan | blue.

Inductive text : Type :=
| str (s : string)
| cat (a b : text)
| pc (c : color) (t : text)
| int (n : jsint)
| count (n : nat)
| num (x : number)
| toFixed (x : number) (digits : nat)
| arg (v : value)
| error_object (e : thrown)
| object (m : SDKMessage).

Inductive effect : Type :=
| console_log (args : list text)
| console_error (args : list text)
| stdout_write (s : string)
| existsSync_call (path : string)
| readFileSync_call (path : string)
| query_call (q : Query)
| sleep_call (ms : Z)
| spawn_call (argv : list string).

Definition trace : Type := list effect.

(** [util.parseArgs]'s [values] for the option table of [parseCliArgs]. *)
Record Values : Type := {
  values_dir : string;
  values_max_sessions : string;
  values_model : string;
  values_verbose : bool;
  values_help : bool
}.

End Messages.

Infix "+++" := cat (at level 60, right associativity).

(** ** The outside world *)

Class Environment {N : Numbers} : Type := {
  world : Type;
  (** [path.resolve(...)] *)
  resolve : list string -> string;
  (** [util.parseArgs] on [Bun.argv.slice(2)]: what it throws, or
      [values] and [positionals] *)
  parseArgs : world -> thrown + (Values * list string);
  existsSync : world -> string -> bool;
  (** [readFileSync(path, "utf-8")]; [None] when it throws *)
  readFileSync : world -> string -> option string;
  (** one agent session: what it streams, and the world it leaves *)
  query : world -> Query -> stream * world;
  (** the world after [Bun.sleep(ms)] *)
  sleep : world -> Z -> world;
  (** [await Bun.spawn(argv).exited]: what it throws, if it does, and the
      world after *)
  spawn : world -> list string -> option thrown * world
}.

(** ** Effectful code

    A computation reads and changes the world, leaves a trace of what it
    did, and returns, throws or exits. *)

Section Monad.
Context {N : Numbers} {W : Environment}.

Definition M (A : Type) : Type := world -> outcome A * trace * world.

Definition ret {A} (a : A) : M A := fun w => (Returns a, [], w).

Definition bind {A B} (c : M A) (k : A -> M B) : M B :=
  fun w =>
    match c w with
    | (Returns a, t, w') =>
        match k a w' with
        | (r, t', w'') => (r, t ++ t', w'')
        end
    | (Throws e, t, w') => (Throws e, t, w')
    | (Exits code, t, w') => (Exits code, t, w')
    end.

(** [try { c } catch (error) { h error }] *)
Definition try_catch {A} (c : M A) (h : thrown -> M A) : M A :=
  fun w =>
    match c w with
    | (Throws e, t, w') =>
        match h e w' with
        | (r, t', w'') => (r, t ++ t', w'')
        end
    | other => other
    end.

(** An expression evaluated inside a statement. *)
Definition lift {A} (c : result A) : M A :=
  fun w =>
    (match c with
     | Ok a => Returns a
     | Throw e => Throws e
     end, [], w).

Definition emit (e : effect) : M unit := fun w => (Returns tt, [e], w).

Definition throw {A} (e : thrown) : M A := fun w => (Throws e, [], w).

Definition process_exit {A} (code : Z) : M A := fun w => (Exits code, [], w).

End Monad.

Notation "x <- c ;; k" := (bind c (fun x => k))
  (at level 61, c at next level, right associativity).
Notation "c ;; k" := (bind c (fun _ => k))
  (at level 61, right associativity).

(** ** Prompt providers ([src/prompts/]) *)

(** The template of [getInitializerPrompt] up to its [projectSpec] hole. *)
Definition initializer_head : string :=
  "You are setting up the environment for a long-running coding project. Your goal is to create the foundation that will enable incremental progress across many sessions.

## Project Specification
".

(** The template of [getInitializerPrompt] after its [projectSpec] hole. *)
Definition initializer_tail : string :=
  ("

## Your Tasks

### 1. Create feature_list.json
Create a comprehensive feature_list.json file that breaks down the project specification into discrete, testable features. Each feature should be:
- Specific and verifiable
- End-to-end testable
- Independent where possible

Use this JSON schema:
```json
{
  " ++
  dq ++
  "features" ++
  dq ++
  ": [
    {
      " ++
  dq ++
  "category" ++
  dq ++
  ": " ++
  dq ++
  "functional|infrastructure|testing|documentation" ++
  dq ++
  ",
      " ++
  dq ++
  "description" ++
  dq ++
  ": " ++
  dq ++
  "Clear description of what this feature does" ++
  dq ++
  ",
      " ++
  dq ++
  "steps" ++
  dq ++
  ": [
        " ++
  dq ++
  "Step 1 to verify this feature works" ++
  dq ++
  ",
        " ++
  dq ++
  "Step 2 to verify..." ++
  dq ++
  ",
        " ++
  dq ++
  "..." ++
  dq ++
  "
      ],
      " ++
  dq ++
  "passes" ++
  dq ++
  ": false,
      " ++
  dq ++
  "priority" ++
  dq ++
  ": 1
    }
  ]
}
```

Include at least 20-30 features for a typical project. Prioritize them (1 = highest priority).

### 2. Create claude-progress.txt
Create a progress tracking file with this format:
```
# Claude Progress Log

## Session 1 - [DATE]
### Initial Setup
- Created feature_list.json with N features
- Created init.nu
- Made initial commit

### Next Session Should:
- Start with the highest priority feature
- Run init.nu to set up the environment
```

### 3. Create init.nu
Create a nushell initialization script that:
- Sets up any necessary environment (install dependencies, etc.)
- Starts any required services (dev server, database, etc.)
- Is idempotent (safe to run multiple times)

Use nushell syntax (not bash). Make it executable with appropriate comments.

### 4. Make Initial Git Commit
After creating these files:
1. Initialize git if not already initialized
2. Create a .gitignore if needed
3. Stage and commit with message: " ++
  dq ++
  "chore: initialize long-running agent environment" ++
  dq ++
  "

## Important Guidelines
- Be thorough in the feature list - missing features will be missing from the final product
- Features should be ordered by dependency (foundational features first)
- Each feature should be completable in a single session
- DO NOT start implementing features - just set up the environment

## Critical Constraints
- **DO NOT use WebSearch** - work only with the project spec and existing codebase
- **DO NOT spawn Task agents** - do all work directly yourself
- **DO NOT do research** - just create the environment files based on the spec
- **FOCUS** - your only job is to create feature_list.json, claude-progress.txt, init.nu, and commit

Start by briefly exploring the project directory structure, then create the files.")%string.

Definition getInitializerPrompt (projectSpec : string) : string :=
  (initializer_head ++ projectSpec ++ initializer_tail)%string.

Definition getPlannerPrompt : string :=
  "You are a software architect planning the implementation of a feature. Your goal is to create a detailed implementation plan that a coding agent can follow.

## Session Startup Checklist
Before planning, complete these steps in order:

1. **Orientation**
   - Run `pwd` to confirm your working directory
   - Read `claude-progress.txt` to understand recent work
   - Read `git log --oneline -10` to see recent commits
   - Read `feature_list.json` to understand the feature requirements

2. **Verify Environment**
   - Run `./init.sh` if it exists to ensure the environment is set up
   - Do a basic smoke test to ensure the project compiles/runs

3. **Choose Your Feature**
   - Find the highest-priority feature where `passes: false`
   - Announce which feature you will plan

## Planning Process

### 1. Understand the Feature
- Read the feature description and verification steps carefully
- Identify what success looks like

### 2. Explore the Codebase
- Search for related code, patterns, and conventions
- Understand how similar features are implemented
- Identify files that will need modification
- Find reusable utilities, types, and patterns

### 3. Design the Implementation
Consider:
- What files need to be created or modified?
- What is the dependency order of changes?
- What edge cases need handling?
- What tests are needed?
- What could go wrong?

### 4. Write plan.md
Create a detailed implementation plan with this structure:

```markdown
# Implementation Plan: [Feature Description]

## Feature
[Copy the feature from feature_list.json]

## Analysis
- Brief analysis of what's needed
- Key files/modules involved
- Existing patterns to follow

## Implementation Steps
1. [First step with specific file and changes]
2. [Second step...]
3. ...

## Files to Modify
- `path/to/file.ts` - [what changes]
- `path/to/other.rs` - [what changes]

## Files to Create (if any)
- `path/to/new.ts` - [purpose]

## Testing Strategy
- How to verify each step
- End-to-end verification steps

## Risks and Mitigations
- Potential issues and how to handle them
```

## Critical Rules
- **DO NOT write implementation code** - only the plan
- **DO NOT modify any source files** - only read them
- **DO NOT mark features as passing** - that's for the coder agent
- Be specific about file paths and function names
- Reference actual code you found in your exploration
- The plan should be detailed enough that a coder can follow it step-by-step

## Session End
When your plan is complete:
1. Save it to `plan.md` in the project root
2. Update `claude-progress.txt` noting that you created a plan
3. The next session will be a coding agent that implements your plan

Begin by running through the startup checklist.".

Definition getCoderPrompt : string :=
  "You are implementing a feature based on an existing plan. Your goal is to execute the implementation plan while leaving the codebase in a clean state.

## Session Startup Checklist
Before doing anything else, complete these steps in order:

1. **Orientation**
   - Run `pwd` to confirm your working directory
   - Read `claude-progress.txt` to understand recent work
   - Read `git log --oneline -10` to see recent commits

2. **Read the Plan**
   - Read `plan.md` to understand what needs to be implemented
   - This plan was created by a planner agent who explored the codebase
   - Follow the plan step-by-step

3. **Verify Environment**
   - Run `./init.sh` if it exists to start the dev environment
   - Do a basic smoke test to ensure the app/project is in a working state
   - If something is broken, fix it BEFORE starting new work

## Implementation Guidelines

### Follow the Plan
- The plan in plan.md contains:
  - Feature description and success criteria
  - Specific files to modify/create
  - Step-by-step implementation order
  - Testing strategy
- Execute each step in order
- If the plan has errors, fix them but document the deviation

### Test Thoroughly
- Use the verification steps from the plan
- Test as a user would, not just with unit tests
- If browser testing is needed, use available automation tools
- Only mark a feature as `passes: true` after full verification

### Leave a Clean State
Before ending your session:
1. Ensure all changes are committed with descriptive messages
2. The codebase should be in a working state (no broken builds)
3. Delete plan.md after successful implementation (it's served its purpose)
4. Update `claude-progress.txt` with:
   - What you accomplished
   - Whether the feature passes verification
   - Any issues encountered

## Updating feature_list.json
- ONLY change the `passes` field from `false` to `true`
- NEVER delete features
- NEVER edit feature descriptions
- NEVER add new features

## Git Practices
- Make atomic commits for each logical change
- Use descriptive commit messages
- Commit working states frequently
- If something breaks, `git revert` or fix it immediately

## When Things Go Wrong
- If you break something, fix it before proceeding
- If you can't fix it, document the issue and revert to a working state
- Never leave the codebase in a broken state
- If the plan is fundamentally wrong, document why and stop (next session will re-plan)

## Session End
When you've completed work on your feature:
1. Verify all changes are committed
2. Update the feature's `passes` field in feature_list.json if verified
3. Delete plan.md
4. Update claude-progress.txt with a session summary
5. Run the basic smoke test one more time
6. Report your progress

Begin by running through the startup checklist.".

(** ** The harness ([src/index.ts], three phases) *)

Inductive AgentPhase : Type := initializer | planner | coder.

Definition phase_name (phase : AgentPhase) : string :=
  match phase with
  | initializer => "initializer"
  | planner => "planner"
  | coder => "coder"
  end.

Record Options : Type := {
  projectSpec : string;
  dir : string;
  maxSessions : jsint;
  verbose : bool;
  options_model : string
}.

(** What one turn of the session loop asks of the loop: go on with the next
    session ([continue], or the end of the body), or leave ([break]). *)
Inductive flow : Type := next | stop.

(** *** [parseInt(s, 10)] *)

Definition is_space (c : ascii) : bool :=
  let n := nat_of_ascii c in
  ((9 <=? n) && (n <=? 13) || (n =? 32) || (n =? 160))%nat.

Definition digit_of (c : ascii) : option Z :=
  let n := nat_of_ascii c in
  if ((48 <=? n) && (n <=? 57))%nat then Some (Z.of_nat (n - 48)) else None.

Fixpoint skip_spaces (s : string) : string :=
  match s with
  | String c rest => if is_space c then skip_spaces rest else s
  | EmptyString => s
  end.

(** The value of the longest prefix of decimal digits, [None] when the
    first character is not a digit. *)
Fixpoint digits (s : string) (acc : option Z) : option Z :=
  match s with
  | String c rest =>
      match digit_of c with
      | Some d =>
          digits rest (Some (10 * match acc with Some a => a | None => 0 end + d)%Z)
      | None => acc
      end
  | EmptyString => acc
  end.

(** The result is a double; it is embedded by the integer it stands for,
    which is exact below 2^53. *)
Definition parseInt (s : string) : jsint :=
  let s := skip_spaces s in
  let '(negative, s) :=
    match s with
    | String "-"%char rest => (true, rest)
    | String "+"%char rest => (false, rest)
    | _ => (false, s)
    end in
  match digits s None with
  | Some z => Int (if negative then - z else z)%Z
  | None => NaN
  end.

(** [session <= maxSessions] *)
Definition le (session : Z) (m : jsint) : bool :=
  match m with
  | NaN => false
  | Int z => (session <=? z)%Z
  end.

(** The help text of [parseCliArgs]. *)
Definition usage : string :=
  ("
agent-loop - Long-running agent harness for complex coding tasks

Based on Anthropic's research:
https://www.anthropic.com/engineering/effective-harnesses-for-long-running-agents

Usage: agent-loop <project-spec> [options]

Arguments:
  project-spec        Project specification (used for initialization)

Options:
  -d, --dir <path>           Project directory to work in (default: " ++
  dq ++
  "." ++
  dq ++
  ")
  -m, --model <model>        Model to use (default: " ++
  dq ++
  "claude-opus-4-5-20251101" ++
  dq ++
  ")
  -n, --max-sessions <num>   Maximum number of sessions to run (default: 50)
  -v, --verbose              Enable verbose logging (show all SDK events)
  -h, --help                 Show this help message

Three-Phase Approach:
  1. Initializer - Creates feature_list.json, init.sh, claude-progress.txt
  2. Planner     - Explores codebase and creates plan.md for next feature
  3. Coder       - Implements the plan and marks feature as passing

Examples:
  agent-loop " ++
  dq ++
  "Build a REST API with user authentication" ++
  dq ++
  "
  agent-loop " ++
  dq ++
  "Create a CLI tool for parsing CSV files" ++
  dq ++
  " -d ./my-project
  agent-loop " ++
  dq ++
  "Implement a todo app with React" ++
  dq ++
  " -n 100
  agent-loop " ++
  dq ++
  "Fix bugs" ++
  dq ++
  " -m claude-sonnet-4-5-20250929  # use Sonnet
")%string.

Section Harness.
Context {N : Numbers} {E : Engine} {W : Environment}.

Definition log (t : text) : M unit := emit (console_log [t]).

Definition error (t : text) : M unit := emit (console_error [t]).

(** [for (const x of xs) { f x }] *)
Fixpoint for_of {A} (xs : list A) (f : A -> M unit) : M unit :=
  match xs with
  | [] => ret tt
  | x :: rest => f x ;; for_of rest f
  end.

Definition fs_exists (path : string) : M bool :=
  fun w => (Returns (existsSync w path), [existsSync_call path], w).

Definition fs_read (path : string) : M string :=
  fun w =>
    (match readFileSync w path with
     | Some content => Returns content
     | None => Throws (ErrorInstance "readFileSync failed" None)
     end, [readFileSync_call path], w).

(** [JSON.parse(s)] *)
Definition parse (s : string) : result value :=
  match JSON_parse s with
  | Some v => Ok v
  | None => Throw SyntaxError
  end.

(** [await Bun.sleep(ms)] *)
Definition Bun_sleep (ms : Z) : M unit :=
  fun w => (Returns tt, [sleep_call ms], sleep w ms).

Definition parseCliArgs : M Options :=
  parsed <- (fun w =>
               (match parseArgs w with
                | inr p => Returns p
                | inl e => Throws e
                end, [], w)) ;;
  let '(values, positionals) := parsed in
  if values_help values || (List.length positionals =? 0)%nat then
    log (str usage) ;;
    process_exit (if values_help values then 0 else 1)%Z
  else
    ret {| projectSpec := join " " positionals;
           dir := resolve [values_dir values];
           maxSessions := parseInt (values_max_sessions values);
           verbose := values_verbose values;
           options_model := values_model values |}.

(** *** Progress tracker *)

(** The [FeatureList] interface, and the value [JSON.parse] builds from a
    document that follows it. *)
Record Feature : Type := {
  category : string;
  description : string;
  steps : list string;
  passes : bool;
  priority : number
}.

Record FeatureList : Type := { features : list Feature }.

Definition Feature_value (f : Feature) : value :=
  VObj [("category", VStr (category f));
        ("description", VStr (description f));
        ("steps", VArr (map VStr (steps f)));
        ("passes", VBool (passes f));
        ("priority", VNum (priority f))].

Definition FeatureList_value (l : FeatureList) : value :=
  VObj [("features", VArr (map Feature_value (features l)))].

Definition is_null (v : value) : bool :=
  match v with
  | VNull => true
  | _ => false
  end.

Definition readFeatureList (dir : string) : M value :=
  let featureFile := resolve [dir; "feature_list.json"] in
  present <- fs_exists featureFile ;;
  if negb present then ret VNull
  else
    try_catch
      (content <- fs_read featureFile ;;
       lift (parse content))
      (fun _ =>
         error (str "Failed to parse feature_list.json") ;;
         ret VNull).

Definition planExists (dir : string) : M bool :=
  fs_exists (resolve [dir; "plan.md"]).

(** [items.filter((f) => f.passes)] *)
Fixpoint filter_passes (items : list value) : result (list value) :=
  match items with
  | [] => Ok []
  | f :: rest =>
      let! passes := get f "passes" in
      let! kept := filter_passes rest in
      Ok (if truthy passes then f :: kept else kept)
  end.

Record Progress : Type := { passing : nat; total : nat }.

(** The parameter is typed [FeatureList] in the source, by an unchecked
    cast of what [JSON.parse] returned; here it is that value.  Only an
    array has both a [length] and a [filter] method. *)
Definition getProgress (features : value) : result Progress :=
  let! list := get features "features" in
  match list with
  | VArr items =>
      let total := List.length items in
      let! kept := filter_passes items in
      let passing := List.length kept in
      Ok {| passing := passing; total := total |}
  | VUndefined | VNull => Throw (TypeError "cannot read property length")
  | VBool _ | VNum _ | VStr _ | VObj _ =>
      Throw (TypeError "filter is not a function")
  end.

(** *** Phase resolver *)

Definition determinePhase (dir : string) : M AgentPhase :=
  featureList <- readFeatureList dir ;;
  if is_null featureList then ret initializer
  else
    plan <- planExists dir ;;
    if plan then ret coder else ret planner.

Definition getPromptForPhase (phase : AgentPhase) (projectSpec : string)
  : string :=
  match phase with
  | initializer => getInitializerPrompt projectSpec
  | planner => getPlannerPrompt
  | coder => getCoderPrompt
  end.

Definition formatPhase (phase : AgentPhase) : text :=
  match phase with
  | initializer =>
      pc yellow (str "[" +++ str (phase_name phase)
                 +++ str "] Initializing project...")
  | planner =>
      pc magenta (str "[" +++ str (phase_name phase)
                  +++ str "] Planning next feature...")
  | coder =>
      pc green (str "[" +++ str (phase_name phase)
                +++ str "] Implementing plan...")
  end.

(** *** Event stream classifier *)

(** The options literal of [runAgent]'s call of [query]. *)
Definition session_query (prompt cwd model : string) (verbose : bool)
  : Query :=
  {| prompt := prompt;
     cwd := cwd;
     model := Some model;
     permissionMode := "bypassPermissions";
     allowDangerouslySkipPermissions := true;
     persistSession := Some false;
     sandbox_enabled := Some false;
     settingSources := Some [];
     systemPrompt_append :=
       Some (nl ++ "IMPORTANT: Your working directory is " ++ cwd ++ "." ++ nl
             ++ "All file paths should be relative to " ++ cwd
             ++ " or absolute paths starting with " ++ cwd ++ "." ++ nl
             ++ "When you run 'pwd', it should show " ++ cwd ++ "." ++ nl
             ++ "Do NOT use paths like /home/user/repos/ - those are incorrect.")%string;
     allowedTools := None;
     disallowedTools := ["Bash"];
     mcpServers := [("nu", ("nu", ["--mcp"]))];
     stderr := verbose |}.

Definition sdk_query (q : Query) : M stream :=
  fun w => let '(s, w') := query w q in (Returns s, [query_call q], w').

(** [s.length > cap ? s.slice(0, cap) + "..." : s] on a string *)
Definition truncate (cap : nat) (s : string) : string :=
  if (cap <? String.length s)%nat then (slice0 cap s ++ "...")%string else s.

(** The same expression on whatever value the variable holds. *)
Definition truncate_value (cap : nat) (v : value) : result value :=
  let! long := length_gt v cap in
  if long then slice_ellipsis v cap else Ok v.

(** [v || "(empty)"] *)
Definition or_empty (v : value) : value :=
  if truthy v then v else VStr "(empty)".

Definition is_undefined (v : value) : bool :=
  match v with
  | VUndefined => true
  | _ => false
  end.

(** [Array.isArray(parsed) && parsed[0]?.text], as a condition *)
Definition array_with_text (parsed : value) : bool :=
  match parsed with
  | VArr items =>
      match get_opt (first items) "text" with
      | Ok text => truthy text
      | _ => false
      end
  | _ => false
  end.

(** [parsed[0].text], read once the condition above holds *)
Definition first_text (parsed : value) : result value :=
  match parsed with
  | VArr items => get (first items) "text"
  | _ => Ok VUndefined
  end.

(** The body of the [try] block that unwraps a nushell MCP response: the
    value [resultStr] holds when the block ends, or what it throws.
    [resultStr] is a string, or [undefined] ([None]) when the content was
    not a string and [JSON.stringify] gave [undefined]. *)
Definition unwrap_try (resultStr : option string) : result value :=
  match resultStr with
  | None => Throw (TypeError "cannot read property includes")
  | Some s =>
      if includes s (quoted "output") || includes s "output:" then
        let! parsed := parse s in
        if array_with_text parsed then
          let! text := first_text parsed in
          let! source := ToString text in
          let! inner := parse source in
          let! output := get inner "output" in
          if negb (is_undefined output) then Ok (or_empty output)
          else Ok (VStr s)
        else
          let! output := get parsed "output" in
          if negb (is_undefined output) then Ok (or_empty output)
          else Ok (VStr s)
      else Ok (VStr s)
  end.

Definition value_of (resultStr : option string) : value :=
  match resultStr with
  | Some s => VStr s
  | None => VUndefined
  end.

(** The [try] block with its empty [catch]: [resultStr] afterwards. *)
Definition unwrap (resultStr : option string) : value :=
  match unwrap_try resultStr with
  | Ok v => v
  | Throw _ => value_of resultStr
  end.

(** [typeof content === "string" ? content : JSON.stringify(content)] *)
Definition result_string (content : value) : option string :=
  match content with
  | VStr s => Some s
  | _ => JSON_stringify content
  end.

(** What is handed to [console.log] for a tool result, or what the
    display code throws. *)
Definition tool_result_display (verbose : bool) (content : value)
  : result string :=
  let resultStr := unwrap (result_string content) in
  let maxLen := if verbose then 2000 else 500 in
  let! truncated := truncate_value maxLen resultStr in
  ToString truncated.

(** What is shown of a tool invocation's input. *)
Definition tool_input_display (input : value) : result string :=
  match JSON_stringify input with
  | Some inputStr => Ok (truncate 200 inputStr)
  | None => Throw (TypeError "cannot read property length")
  end.

Definition assistant_block (b : block) : M unit :=
  match b with
  | text_block text => emit (stdout_write text)
  | tool_use name input =>
      truncated <- lift (tool_input_display input) ;;
      log (str nl +++ pc yellow (str "[tool] " +++ str name) +++ str " "
           +++ pc dim (str truncated))
  | tool_result _ | other_block _ => ret tt
  end.

Definition user_block (verbose : bool) (b : block) : M unit :=
  match b with
  | tool_result content =>
      shown <- lift (tool_result_display verbose content) ;;
      log (pc dim (str shown))
  | text_block _ | tool_use _ _ | other_block _ => ret tt
  end.

(** The body of the [for await] loop, for one message. *)
Definition on_message (verbose : bool) (m : SDKMessage) : M unit :=
  (if verbose then
     log (pc dim (str "[message] type=" +++ str (type_of m)
                  +++ match subtype_of m with
                      | Some subtype => str " subtype=" +++ str subtype
                      | None => str ""
                      end))
   else ret tt) ;;
  match m with
  | system_message subtype session_id model tools =>
      if (subtype =? "init")%string then
        log (pc dim (str "[system] Session " +++ str session_id
                     +++ str " initialized")) ;;
        log (pc dim (str "[system] Model: " +++ str model
                     +++ str ", Tools: " +++ count (List.length tools)))
      else if verbose then log (pc dim (str "[system] " +++ str subtype))
      else ret tt
  | assistant_message _ (Some content) => for_of content assistant_block
  | assistant_message _ None => ret tt
  | user_message (Some content) => for_of content (user_block verbose)
  | user_message None => ret tt
  | result_message subtype num_turns total_cost_usd errors =>
      if (subtype =? "success")%string then
        log (str nl +++ pc green (str "[result] Success - " +++ num num_turns
                                  +++ str " turns, $"
                                  +++ toFixed total_cost_usd 4))
      else
        error (str nl +++ pc red (str "[result] Error: " +++ str subtype)) ;;
        match errors with
        | Some errs => for_of errs (fun err => error (str "  " +++ str err))
        | None => ret tt
        end
  | tool_progress_message tool_name elapsed_time_seconds =>
      if verbose then
        log (pc dim (str "[progress] " +++ str tool_name +++ str " ("
                     +++ toFixed elapsed_time_seconds 1 +++ str "s)"))
      else ret tt
  | stream_event_message event_type =>
      if verbose then log (pc dim (str "[stream] " +++ str event_type))
      else ret tt
  | other_message _ _ => ret tt
  end.

Definition on_item (verbose : bool) (i : item) : M unit :=
  match i with
  | message m => on_message verbose m
  | stderr_data data =>
      if verbose then error (pc dim (str "[stderr] " +++ str data))
      else ret tt
  end.

(** The [try] block of [runAgent]: the stream is pulled to its end. *)
Definition consume (prompt cwd model : string) (verbose : bool) : M bool :=
  s <- sdk_query (session_query prompt cwd model verbose) ;;
  for_of (items s) (on_item verbose) ;;
  match ending s with
  | Some e => throw e
  | None => ret tt
  end ;;
  log (str (nl ++ "--- Agent session ended ---" ++ nl)%string) ;;
  ret true.

(** [error.stack], when [error instanceof Error] and the stack is truthy *)
Definition stack_of (e : thrown) : option string :=
  match e with
  | ErrorInstance _ (Some stack) =>
      if (stack =? "")%string then None else Some stack
  | _ => None
  end.

(** The [catch] block of [runAgent]. *)
Definition report (verbose : bool) (e : thrown) : M bool :=
  error (str (nl ++ "--- Agent session failed ---")%string) ;;
  emit (console_error
          [str "Error:";
           match e with
           | ErrorInstance msg _ => str msg
           | NonError v => arg v
           end]) ;;
  match stack_of e with
  | Some stack =>
      if verbose then emit (console_error [str "Stack:"; str stack])
      else ret tt
  | None => ret tt
  end ;;
  ret false.

Definition runAgent (prompt cwd model : string) (verbose : bool) : M bool :=
  log (str (nl ++ "--- Agent session starting ---" ++ nl)%string) ;;
  try_catch (consume prompt cwd model verbose) (report verbose).

(** *** Session orchestrator *)

Definition notify (message title : string) : M unit :=
  let script :=
    ("display notification " ++ quoted message ++ " with title "
     ++ quoted title ++ " sound name " ++ quoted "Glass")%string in
  fun w =>
    let '(thrown, w') := spawn w ["osascript"; "-e"; script] in
    (match thrown with
     | None => Returns tt
     | Some e => Throws e
     end, [spawn_call ["osascript"; "-e"; script]], w').

(** The progress check after a session that did not fail. *)
Definition check_progress (options : Options) : M flow :=
  featureList <- readFeatureList (dir options) ;;
  if negb (is_null featureList) then
    progress <- lift (getProgress featureList) ;;
    log (pc blue (str "Progress: " +++ count (passing progress) +++ str "/"
                  +++ count (total progress) +++ str " features passing")) ;;
    if (passing progress =? total progress)%nat then
      log (pc green (str "All features complete!")) ;;
      notify "Agent loop complete" "All features passing" ;;
      ret stop
    else ret next
  else ret next.

(** The body of the [for] loop of [main]. *)
Definition session_body (options : Options) (session : Z) : M flow :=
  log (str nl +++ pc cyan (str "=== Session " +++ int (Int session) +++ str "/"
                           +++ int (maxSessions options) +++ str " ===")) ;;
  phase <- determinePhase (dir options) ;;
  let prompt := getPromptForPhase phase (projectSpec options) in
  log (formatPhase phase) ;;
  success <- runAgent prompt (dir options) (options_model options)
               (verbose options) ;;
  if negb success then
    log (pc yellow (str "Session failed, retrying after delay...")) ;;
    Bun_sleep 5000 ;;
    ret next
  else
    after <- check_progress options ;;
    match after with
    | stop => ret stop
    | next =>
        Bun_sleep 2000 ;;
        ret next
    end.

(** [for (; session <= options.maxSessions; session++) { ... }].  The loop
    runs at most [maxSessions + 1 - session] times; [fuel] is an upper bound
    of that count, given by [main], so that the recursion is structural. *)
Fixpoint sessions (fuel : nat) (options : Options) (session : Z) : M unit :=
  if le session (maxSessions options) then
    match fuel with
    | O => ret tt
    | S fuel' =>
        after <- session_body options session ;;
        match after with
        | stop => ret tt
        | next => sessions fuel' options (session + 1)%Z
        end
    end
  else ret tt.

(** The number of sessions the budget allows. *)
Definition budget (m : jsint) : nat :=
  match m with
  | NaN => 0
  | Int z => Z.to_nat z
  end.

Definition main : M unit :=
  options <- parseCliArgs ;;
  present <- fs_exists (dir options) ;;
  if negb present then
    error (str "Project directory does not exist: " +++ str (dir options)) ;;
    process_exit 1
  else
    log (pc cyan (str "=== Agent Loop Starting ===")) ;;
    log (str "Directory: " +++ str (dir options)) ;;
    log (str "Model: " +++ str (options_model options)) ;;
    log (str "Max sessions: " +++ int (maxSessions options)) ;;
    (if verbose options then log (str "Verbose mode: enabled") else ret tt) ;;
    sessions (budget (maxSessions options)) options 1 ;;
    log (pc cyan (str "=== Agent loop finished ===")).

(** [main().catch(...)], the whole program. *)
Definition program : M unit :=
  try_catch main
    (fun e =>
       emit (console_error [str "Fatal error:"; error_object e]) ;;
       process_exit 1).

End Harness.

(** ** The two-phase harness (the earlier [src/index.ts])

    [readFeatureList], [getProgress], [notify] and [getInitializerPrompt]
    have the same text in both harnesses and are shared. *)

Module TwoPhase.

(** [getCoderPrompt] of the two-phase harness. *)
Definition getCoderPrompt : string :=
  "You are continuing work on a long-running coding project. Your goal is to make incremental progress while leaving the codebase in a clean state.

## Session Startup Checklist
Before doing anything else, complete these steps in order:

1. **Orientation**
   - Run `pwd` to confirm your working directory
   - Read `claude-progress.txt` to understand recent work
   - Read `git log --oneline -10` to see recent commits

2. **Verify Environment**
   - Run `./init.sh` if it exists to start the dev environment
   - Do a basic smoke test to ensure the app/project is in a working state
   - If something is broken, fix it BEFORE starting new work

3. **Choose Your Feature**
   - Read `feature_list.json`
   - Find the highest-priority feature where `passes: false`
   - Announce which feature you will work on

## Implementation Guidelines

### Work on ONE Feature
- Focus entirely on the chosen feature
- Do not get sidetracked by other improvements
- If you discover a bug unrelated to your feature, note it in claude-progress.txt but don't fix it now

### Test Thoroughly
- Use the verification steps in the feature definition
- Test as a user would, not just with unit tests
- If browser testing is needed, use available automation tools
- Only mark a feature as `passes: true` after full verification

### Leave a Clean State
Before ending your session:
1. Ensure all changes are committed with descriptive messages
2. The codebase should be in a working state (no broken builds)
3. Update `claude-progress.txt` with:
   - What you accomplished
   - What the next session should focus on
   - Any issues or blockers encountered

## Updating feature_list.json
- ONLY change the `passes` field from `false` to `true`
- NEVER delete features
- NEVER edit feature descriptions
- NEVER add new features (that's for the initializer agent)

## Git Practices
- Make atomic commits for each logical change
- Use descriptive commit messages
- Commit working states frequently
- If something breaks, `git revert` or fix it immediately

## When Things Go Wrong
- If you break something, fix it before proceeding
- If you can't fix it, document the issue and revert to a working state
- Never leave the codebase in a broken state

## Session End
When you've completed work on your feature (or run out of context):
1. Verify all changes are committed
2. Update claude-progress.txt with a session summary
3. Run the basic smoke test one more time
4. Report your progress

Begin by running through the startup checklist.".

(** The help text of [parseCliArgs]. *)
Definition usage : string :=
  ("
agent-loop - Long-running agent harness for complex coding tasks

Based on Anthropic's research:
https://www.anthropic.com/engineering/effective-harnesses-for-long-running-agents

Usage: agent-loop <project-spec> [options]

Arguments:
  project-spec        Project specification (used for initialization)

Options:
  -d, --dir <path>           Project directory to work in (default: " ++
  dq ++
  "." ++
  dq ++
  ")
  -n, --max-sessions <num>   Maximum number of sessions to run (default: 50)
  -h, --help                 Show this help message

Examples:
  agent-loop " ++
  dq ++
  "Build a REST API with user authentication" ++
  dq ++
  "
  agent-loop " ++
  dq ++
  "Create a CLI tool for parsing CSV files" ++
  dq ++
  " -d ./my-project
  agent-loop " ++
  dq ++
  "Implement a todo app with React" ++
  dq ++
  " -n 100
")%string.

Record Options : Type := {
  projectSpec : string;
  dir : string;
  maxSessions : jsint
}.

Section Harness.
Context {N : Numbers} {E : Engine} {W : Environment}.

(** The escape character, [\x1b] in the source. *)
Definition esc : string := String "027"%char EmptyString.

(** A text between the escape sequence of a colour and the reset
    sequence. *)
Definition ansi (code : string) (t : text) : text :=
  str (esc ++ "[" ++ code ++ "m")%string +++ t +++ str (esc ++ "[0m")%string.

Definition parseCliArgs : M Options :=
  parsed <- (fun w =>
               (match parseArgs w with
                | inr p => Returns p
                | inl e => Throws e
                end, [], w)) ;;
  let '(values, positionals) := parsed in
  if values_help values || (List.length positionals =? 0)%nat then
    log (str usage) ;;
    process_exit (if values_help values then 0 else 1)%Z
  else
    ret {| projectSpec := join " " positionals;
           dir := resolve [values_dir values];
           maxSessions := parseInt (values_max_sessions values) |}.

Definition session_query (prompt cwd : string) : Query :=
  {| prompt := prompt;
     cwd := cwd;
     model := None;
     permissionMode := "bypassPermissions";
     allowDangerouslySkipPermissions := false;
     persistSession := None;
     sandbox_enabled := None;
     settingSources := None;
     systemPrompt_append := None;
     allowedTools :=
       Some ["Read"; "Write"; "Edit"; "Bash"; "Glob"; "Grep"; "WebSearch";
             "WebFetch"];
     disallowedTools := [];
     mcpServers := [];
     stderr := false |}.

Definition on_item (i : item) : M unit :=
  match i with
  | message (assistant_message (Some content) _) =>
      emit (stdout_write content)
  | message (result_message subtype _ _ _ as m) =>
      if (subtype =? "error_during_execution")%string then
        emit (console_error [str (nl ++ "Agent error:")%string; object m])
      else ret tt
  | _ => ret tt
  end.

(** There is no [try] here: what the stream throws leaves [runAgent]. *)
Definition runAgent (prompt cwd : string) : M unit :=
  log (str (nl ++ "--- Agent session starting ---" ++ nl)%string) ;;
  s <- sdk_query (session_query prompt cwd) ;;
  for_of (items s) on_item ;;
  match ending s with
  | Some e => throw e
  | None => ret tt
  end ;;
  log (str (nl ++ "--- Agent session ended ---" ++ nl)%string).

(** The progress check after a session. *)
Definition check_progress (options : Options) : M flow :=
  updatedFeatures <- readFeatureList (dir options) ;;
  if negb (is_null updatedFeatures) then
    progress <- lift (getProgress updatedFeatures) ;;
    log (ansi "34" (str "Progress: " +++ count (passing progress) +++ str "/"
                    +++ count (total progress) +++ str " features passing")) ;;
    if (passing progress =? total progress)%nat then
      log (ansi "32" (str "All features complete!")) ;;
      notify "Agent loop complete" "All features passing" ;;
      ret stop
    else ret next
  else ret next.

(** The body of the [for] loop of [main]. *)
Definition session_body (options : Options) (session : Z) : M flow :=
  log (str nl +++ ansi "36" (str "=== Session " +++ int (Int session)
                             +++ str "/" +++ int (maxSessions options)
                             +++ str " ===")) ;;
  featureList <- readFeatureList (dir options) ;;
  (if is_null featureList then
     log (ansi "33" (str "Initializing project...")) ;;
     runAgent (getInitializerPrompt (projectSpec options)) (dir options)
   else
     log (ansi "32" (str "Continuing progress...")) ;;
     runAgent getCoderPrompt (dir options)) ;;
  after <- check_progress options ;;
  match after with
  | stop => ret stop
  | next =>
      Bun_sleep 2000 ;;
      ret next
  end.

Fixpoint sessions (fuel : nat) (options : Options) (session : Z) : M unit :=
  if le session (maxSessions options) then
    match fuel with
    | O => ret tt
    | S fuel' =>
        after <- session_body options session ;;
        match after with
        | stop => ret tt
        | next => sessions fuel' options (session + 1)%Z
        end
    end
  else ret tt.

Definition main : M unit :=
  options <- parseCliArgs ;;
  present <- fs_exists (dir options) ;;
  if negb present then
    error (str "Project directory does not exist: " +++ str (dir options)) ;;
    process_exit 1
  else
    log (ansi "36" (str "=== Agent Loop Starting ===")) ;;
    log (str "Directory: " +++ str (dir options)) ;;
    log (str "Max sessions: " +++ int (maxSessions options)) ;;
    sessions (budget (maxSessions options)) options 1 ;;
    log (ansi "36" (str "=== Agent loop finished ===")).

End Harness.

End TwoPhase.

(** ** A simulated engine and world

    One implementation of the interfaces, to run the harness on concrete
    inputs: numbers are the integers (JSON texts with a fraction or an
    exponent are outside this implementation and it rejects them), the file
    system is a table, and the agent follows a script. *)

Module Sim.

Definition decimal (z : Z) : string :=
  DecimalString.NilZero.string_of_int (Z.to_int z).

(** The integer a string denotes when it is an optional minus sign and
    decimal digits, [None] for any other string. *)
Definition integer_of (s : string) : option Z :=
  match s with
  | String "-"%char rest =>
      match digits rest None with
      | Some z => if (String.length (decimal z) =? String.length rest)%nat
                  then Some (- z)%Z else None
      | None => None
      end
  | _ =>
      match digits s None with
      | Some z => if (String.length (decimal z) =? String.length s)%nat
                  then Some z else None
      | None => None
      end
  end.

Definition numbers : Numbers := {|
  number := Z;
  number_falsy := fun z => (z =? 0)%Z;
  number_toString := decimal;
  number_gt := fun z n => (Z.of_nat n <? z)%Z;
  string_gt := fun s n =>
    match integer_of s with
    | Some z => (Z.of_nat n <? z)%Z
    | None => false
    end
|}.

#[local] Existing Instance numbers.

(** *** [JSON.parse] *)

Fixpoint skip_ws (s : string) : string :=
  match s with
  | String c rest =>
      let n := nat_of_ascii c in
      if ((n =? 32) || (n =? 9) || (n =? 10) || (n =? 13))%nat
      then skip_ws rest else s
  | EmptyString => s
  end.

(** The characters of a string literal after its opening quote, and what
    follows its closing quote.  The [\u] escapes are outside this
    implementation. *)
Fixpoint string_body (s : string) : option (string * string) :=
  match s with
  | EmptyString => None
  | String c rest =>
      if (c =? "034")%char then Some (EmptyString, rest)
      else if (c =? "\")%char then
        match rest with
        | String e rest' =>
            let unescaped :=
              if (e =? "034")%char then Some "034"%char
              else if (e =? "\")%char then Some "\"%char
              else if (e =? "/")%char then Some "/"%char
              else if (e =? "b")%char then Some "008"%char
              else if (e =? "f")%char then Some "012"%char
              else if (e =? "n")%char then Some "010"%char
              else if (e =? "r")%char then Some "013"%char
              else if (e =? "t")%char then Some "009"%char
              else None in
            match unescaped, string_body rest' with
            | Some u, Some (body, after) => Some (String u body, after)
            | _, _ => None
            end
        | EmptyString => None
        end
      else if (nat_of_ascii c <? 32)%nat then None
      else
        match string_body rest with
        | Some (body, after) => Some (String c body, after)
        | None => None
        end
  end.

(** The longest prefix of decimal digits, and the rest. *)
Fixpoint span_digits (s : string) : string * string :=
  match s with
  | String c rest =>
      match digit_of c with
      | Some _ => let '(ds, after) := span_digits rest in (String c ds, after)
      | None => (EmptyString, s)
      end
  | EmptyString => (EmptyString, s)
  end.

(** An integer literal: no leading zero, no fraction, no exponent. *)
Definition integer_literal (s : string) : option (Z * string) :=
  let '(negative, s') :=
    match s with
    | String "-"%char rest => (true, rest)
    | _ => (false, s)
    end in
  let '(ds, after) := span_digits s' in
  match integer_of ds, after with
  | Some z, String c _ =>
      if (c =? ".")%char || (c =? "e")%char || (c =? "E")%char then None
      else Some (if negative then (- z)%Z else z, after)
  | Some z, EmptyString => Some (if negative then (- z)%Z else z, after)
  | None, _ => None
  end.

(** [fields] with the property [k] set to [v]: a repeated key keeps its
    place and takes the last value. *)
Fixpoint set_field (k : string) (v : value) (fields : list (string * value))
  : list (string * value) :=
  match fields with
  | [] => [(k, v)]
  | (k', v') :: rest =>
      if (k =? k')%string then (k, v) :: rest
      else (k', v') :: set_field k v rest
  end.

Definition strip (prefix s : string) : option string :=
  if String.prefix prefix s
  then Some (substring (String.length prefix)
               (String.length s - String.length prefix) s)
  else None.

Fixpoint json_value (fuel : nat) (s : string) : option (value * string) :=
  match fuel with
  | O => None
  | S fuel =>
      match skip_ws s with
      | String c rest as s' =>
          if (c =? "034")%char then
            match string_body rest with
            | Some (body, after) => Some (VStr body, after)
            | None => None
            end
          else if (c =? "[")%char then
            match skip_ws rest with
            | String "]"%char after => Some (VArr [], after)
            | _ =>
                match json_items fuel rest with
                | Some (items, after) => Some (VArr items, after)
                | None => None
                end
            end
          else if (c =? "{")%char then
            match skip_ws rest with
            | String "}"%char after => Some (VObj [], after)
            | _ =>
                match json_members fuel rest [] with
                | Some (fields, after) => Some (VObj fields, after)
                | None => None
                end
            end
          else
            match strip "null" s', strip "true" s', strip "false" s' with
            | Some after, _, _ => Some (VNull, after)
            | _, Some after, _ => Some (VBool true, after)
            | _, _, Some after => Some (VBool false, after)
            | None, None, None =>
                match integer_literal s' with
                | Some (z, after) => Some (VNum z, after)
                | None => None
                end
            end
      | EmptyString => None
      end
  end

with json_items (fuel : nat) (s : string) : option (list value * string) :=
  match fuel with
  | O => None
  | S fuel =>
      match json_value fuel s with
      | Some (v, after) =>
          match skip_ws after with
          | String ","%char rest =>
              match json_items fuel rest with
              | Some (vs, after') => Some (v :: vs, after')
              | None => None
              end
          | String "]"%char rest => Some ([v], rest)
          | _ => None
          end
      | None => None
      end
  end

with json_members (fuel : nat) (s : string) (fields : list (string * value))
  : option (list (string * value) * string) :=
  match fuel with
  | O => None
  | S fuel =>
      match skip_ws s with
      | String c rest =>
          if (c =? "034")%char then
            match string_body rest with
            | Some (k, after) =>
                match skip_ws after with
                | String ":"%char rest' =>
                    match json_value fuel rest' with
                    | Some (v, after') =>
                        let fields' := set_field k v fields in
                        match skip_ws after' with
                        | String ","%char rest'' =>
                            json_members fuel rest'' fields'
                        | String "}"%char rest'' => Some (fields', rest'')
                        | _ => None
                        end
                    | None => None
                    end
                | _ => None
                end
            | None => None
            end
          else None
      | EmptyString => None
      end
  end.

Definition parse_text (s : string) : option value :=
  match json_value (2 * String.length s + 2) s with
  | Some (v, after) =>
      match skip_ws after with
      | EmptyString => Some v
      | _ => None
      end
  | None => None
  end.

(** *** [JSON.stringify] *)

Definition hex_digit (n : nat) : ascii :=
  if (n <? 10)%nat then ascii_of_nat (48 + n) else ascii_of_nat (87 + n).

Fixpoint escape (s : string) : string :=
  match s with
  | EmptyString => EmptyString
  | String c rest =>
      let n := nat_of_ascii c in
      ( (if (c =? "034")%char then "\" ++ dq
         else if (c =? "\")%char then "\\"
         else if (n =? 8)%nat then "\b"
         else if (n =? 12)%nat then "\f"
         else if (n =? 10)%nat then "\n"
         else if (n =? 13)%nat then "\r"
         else if (n =? 9)%nat then "\t"
         else if (n <? 32)%nat then
           "\u00" ++ String (hex_digit (n / 16))
                      (String (hex_digit (n mod 16)) EmptyString)
         else String c EmptyString)
        ++ escape rest)%string
  end.

(** [undefined] has no JSON text: it is [null] as an array item and left
    out as a property. *)
Fixpoint json_text (v : value) : option string :=
  match v with
  | VUndefined => None
  | VNull => Some "null"
  | VBool true => Some "true"
  | VBool false => Some "false"
  | VNum z => Some (decimal z)
  | VStr s => Some (quoted (escape s))
  | VArr items =>
      Some ("[" ++ join ","
              ((fix each (l : list value) : list string :=
                  match l with
                  | [] => []
                  | x :: rest =>
                      match json_text x with
                      | Some t => t
                      | None => "null"
                      end :: each rest
                  end) items) ++ "]")%string
  | VObj fields =>
      Some ("{" ++ join ","
              ((fix each (l : list (string * value)) : list string :=
                  match l with
                  | [] => []
                  | (k, x) :: rest =>
                      match json_text x with
                      | Some t => (quoted (escape k) ++ ":" ++ t)%string :: each rest
                      | None => each rest
                      end
                  end) fields) ++ "}")%string
  end.

Definition engine : Engine := {|
  JSON_parse := parse_text;
  JSON_stringify := json_text
|}.

#[local] Existing Instance engine.

(** *** The world *)

(** The files and directories, the command line, whether [osascript] can
    be spawned, and the sessions still to come: what each streams and the
    files it leaves. *)
Record state : Type := {
  files : list (string * string);
  directories : list string;
  command_line : thrown + (Values * list string);
  osascript : bool;
  script : list (stream * list (string * string))
}.

Fixpoint file (path : string) (table : list (string * string))
  : option string :=
  match table with
  | [] => None
  | (p, content) :: rest =>
      if (path =? p)%string then Some content else file path rest
  end.

Definition environment : Environment := {|
  world := state;
  resolve := join "/";
  parseArgs := command_line;
  existsSync := fun w path =>
    match file path (files w) with
    | Some _ => true
    | None => existsb (String.eqb path) (directories w)
    end;
  readFileSync := fun w path => file path (files w);
  query := fun w _ =>
    match script w with
    | [] => ({| items := []; ending := None |}, w)
    | (s, files') :: rest =>
        (s, {| files := files';
               directories := directories w;
               command_line := command_line w;
               osascript := osascript w;
               script := rest |})
    end;
  sleep := fun w _ => w;
  spawn := fun w _ =>
    (if osascript w then None
     else Some (ErrorInstance "Executable not found in $PATH: osascript" None),
     w)
|}.

#[local] Existing Instance environment.

(** *** Sample worlds *)

(** The command line [agent-loop todo app -d /project -n max_sessions]. *)
Definition cli (max_sessions : string) : thrown + (Values * list string) :=
  inr ({| values_dir := "/project";
          values_max_sessions := max_sessions;
          values_model := "claude-opus-4-5-20251101";
          values_verbose := false;
          values_help := false |},
       ["todo"; "app"]).

(** A project directory with the given files, the sessions to come and
    the [--max-sessions] argument. *)
Definition project (files : list (string * string))
  (script : list (stream * list (string * string))) (max_sessions : string)
  : state :=
  {| files := files;
     directories := ["/project"];
     command_line := cli max_sessions;
     osascript := true;
     script := script |}.

Definition options (max_sessions : string) : Options :=
  {| projectSpec := "todo app";
     dir := "/project";
     maxSessions := parseInt max_sessions;
     verbose := false;
     options_model := "claude-opus-4-5-20251101" |}.

(** A session that streams nothing and ends normally. *)
Definition uneventful : stream := {| items := []; ending := None |}.

(** A session whose stream throws at the first pull. *)
Definition broken : stream :=
  {| items := [];
     ending := Some (ErrorInstance "connection reset" None) |}.

(** A session that streams one tool result and ends normally. *)
Definition one_tool_result (content : string) : stream :=
  {| items := [message (user_message (Some [tool_result (VStr content)]))];
     ending := None |}.

Definition text_of (v : value) : string :=
  match json_text v with
  | Some t => t
  | None => ""
  end.

Definition feature (done : bool) : Feature :=
  {| category := "functional";
     description := "adds a task";
     steps := ["open the app"; "add a task"];
     passes := done;
     priority := 1%Z |}.

(** A feature list file with the given features. *)
Definition feature_list (l : list Feature)
  : list (string * string) :=
  [("/project/feature_list.json",
    text_of (FeatureList_value {| features := l |}))].

(** A tool result whose [output] is an object with a [length]. *)
Definition output_with_length : string :=
  text_of (VObj [("output", VObj [("length", VNum 1000%Z)])]).

(** A tool result that is an array of two text items, the first of which
    holds a response with an [output]. *)
Definition two_text_items : string :=
  text_of (VArr [VObj [("type", VStr "text");
                       ("text", VStr (text_of (VObj [("output", VStr "hi")])))];
                 VObj [("type", VStr "text");
                       ("text", VStr "output: none")]]).

(** A tool result whose [output] is an array of one string of 600
    characters. *)
Definition output_in_array : string :=
  text_of (VObj [("output", VArr [VStr (replicate 600 "a"%char)])]).

End Sim.

(** ** Observations on values and traces *)

Section Observations.
Context {N : Numbers}.

(** The flag the filter of [getProgress] reads on an item. *)
Definition flag (f : value) : bool :=
  match f with
  | VObj fields => truthy (lookup "passes" fields)
  | _ => false
  end.

(** An item on which a property can be read. *)
Definition readable (f : value) : Prop := f <> VNull /\ f <> VUndefined.

(** The prompts of the agent sessions a trace starts, in order. *)
Fixpoint agent_prompts (t : trace) : list string :=
  match t with
  | [] => []
  | query_call q :: rest => prompt q :: agent_prompts rest
  | _ :: rest => agent_prompts rest
  end.

(** The pauses of a trace, in order. *)
Fixpoint pauses (t : trace) : list Z :=
  match t with
  | [] => []
  | sleep_call ms :: rest => ms :: pauses rest
  | _ :: rest => pauses rest
  end.

(** The paths a trace probes or reads. *)
Fixpoint probes (t : trace) : list string :=
  match t with
  | [] => []
  | existsSync_call path :: rest => path :: probes rest
  | readFileSync_call path :: rest => path :: probes rest
  | _ :: rest => probes rest
  end.

(** The [FeatureList] a directory holds, as [readFeatureList] sees it:
    the file is there, it can be read, and its text parses to a value
    other than [null]. *)
Definition feature_list_on_disk {E : Engine} {W : Environment}
  (w : world) (dir : string) : option value :=
  let featureFile := resolve [dir; "feature_list.json"] in
  if existsSync w featureFile then
    match readFileSync w featureFile with
    | Some content =>
        match JSON_parse content with
        | Some VNull | None => None
        | Some v => Some v
        end
    | None => None
    end
  else None.

(** What [readFeatureList] returns: the list on disk, or [null]. *)
Definition read_result {E : Engine} {W : Environment}
  (w : world) (dir : string) : value :=
  match feature_list_on_disk w dir with
  | Some v => v
  | None => VNull
  end.

(** Whether a directory holds a plan. *)
Definition plan_on_disk {W : Environment} (w : world) (dir : string) : bool :=
  existsSync w (resolve [dir; "plan.md"]).

(** The last [n] effects of a trace. *)
Definition last_effects (n : nat) (t : trace) : trace :=
  rev (firstn n (rev t)).

(** A computation that starts agent sessions with the prompts [ps], in
    every world. *)
Definition asks {W : Environment} {A} (c : M A) (ps : list string) : Prop :=
  forall w, agent_prompts (snd (fst (c w))) = ps.

(** A computation that starts no agent session. *)
Definition silent {W : Environment} {A} (c : M A) : Prop := asks c [].

(** The phase the directory is in. *)
Definition resolved {E : Engine} {W : Environment}
  (w : world) (dir : string) : AgentPhase :=
  match feature_list_on_disk w dir with
  | None => initializer
  | Some _ => if plan_on_disk w dir then coder else planner
  end.

(** The agent session the three-phase harness runs in world [w]. *)
Definition session_run {E : Engine} {W : Environment}
  (o : Options) (w : world) : outcome bool * trace * world :=
  runAgent (getPromptForPhase (resolved w (dir o)) (projectSpec o))
    (dir o) (options_model o) (verbose o) w.

(** The trace of a session up to the end of its agent session. *)
Definition session_prefix {E : Engine} {W : Environment}
  (o : Options) (session : Z) (w : world) : trace :=
  console_log
    [str nl +++ pc cyan (str "=== Session " +++ int (Int session) +++ str "/"
                         +++ int (maxSessions o) +++ str " ===")]
  :: snd (fst (determinePhase (dir o) w))
  ++ console_log [formatPhase (resolved w (dir o))]
  :: snd (fst (session_run o w)).

(** The directory holds a feature list on which [getProgress] returns
    equal counts. *)
Definition all_passing {E : Engine} {W : Environment}
  (w : world) (dir : string) : bool :=
  match feature_list_on_disk w dir with
  | Some list =>
      match getProgress list with
      | Ok progress => (passing progress =? total progress)%nat
      | Throw _ => false
      end
  | None => false
  end.

(** The progress line of [check_progress]. *)
Definition progress_line (p : Progress) : effect :=
  console_log
    [pc blue (str "Progress: " +++ count (passing p) +++ str "/"
              +++ count (total p) +++ str " features passing")].

(** The completion announcement and the notification. *)
Definition completion : trace :=
  [console_log [pc green (str "All features complete!")];
   spawn_call
     ["osascript"; "-e";
      ("display notification " ++ quoted "Agent loop complete"
       ++ " with title " ++ quoted "All features passing"
       ++ " sound name " ++ quoted "Glass")%string]].

(** A computation that neither reads nor changes the world and does not
    end the process: it returns or throws, leaving a trace. *)
Definition stateless {W : Environment} {A} (c : M A) : Prop :=
  exists (r : outcome A) (t : trace),
    (forall w, c w = (r, t, w)) /\ (forall code, r <> Exits code).

(** What the [for await] loop of [runAgent] prints for a stream. *)
Definition shown {E : Engine} {W : Environment}
  (verbose : bool) (s : stream) (w : world) : trace :=
  snd (fst (for_of (items s) (on_item verbose) w)).

(** What is thrown inside the [try] block of [runAgent], if anything: by
    the loop body on one of the messages, or by the stream when the next
    message is pulled. *)
Definition raised {E : Engine} {W : Environment}
  (verbose : bool) (s : stream) (w : world) : option thrown :=
  match fst (fst (for_of (items s) (on_item verbose) w)) with
  | Throws e => Some e
  | Returns _ => ending s
  | Exits _ => None
  end.

(** The loop body returns on item [i]. *)
Definition handled {E : Engine} {W : Environment} (verbose : bool) (w : world) (i : item) : Prop :=
  fst (fst (on_item verbose i w)) = Returns tt.

(** Something is thrown while the stream is iterated: the loop body throws
    [e] on an item, the items before it handled; or every item is handled
    and pulling the next message throws [e]. *)
Definition thrown_while_iterating {E : Engine} {W : Environment}
  (verbose : bool) (s : stream) (w : world) (e : thrown) : Prop :=
  (exists before i after,
     items s = before ++ i :: after
     /\ Forall (handled verbose w) before
     /\ fst (fst (on_item verbose i w)) = Throws e)
  \/ (Forall (handled verbose w) (items s) /\ ending s = Some e).

(** What the [catch] block of [runAgent] prints. *)
Definition report_trace (verbose : bool) (e : thrown) : trace :=
  [console_error [str (nl ++ "--- Agent session failed ---")%string];
   console_error [str "Error:";
                  match e with
                  | ErrorInstance msg _ => str msg
                  | NonError v => arg v
                  end]]
  ++ match stack_of e with
     | Some stack =>
         if verbose then [console_error [str "Stack:"; str stack]] else []
     | None => []
     end.

(** A trace that only prints: to the console or to standard output. *)
Definition prints_only (t : trace) : Prop :=
  Forall (fun e => match e with
                   | console_log _ | console_error _ | stdout_write _ => True
                   | _ => False
                   end) t.

(** A computation that only prints: it neither reads nor changes the
    world, does not end the process, and its trace only prints. *)
Definition printer {W : Environment} {A} (c : M A) : Prop :=
  exists (r : outcome A) (t : trace),
    (forall w, c w = (r, t, w))
    /\ (forall code, r <> Exits code)
    /\ prints_only t.

(** The pauses the harness makes: after a failed session and between
    sessions. *)
Definition backoff_or_pacing (ms : Z) : Prop := ms = 5000%Z \/ ms = 2000%Z.

End Observations.

(** * Properties *)

(** ** Strings *)

Lemma length_append (a b : string) :
  String.length (a ++ b) = String.length a + String.length b.
Proof.
  induction a as [|c a IH]; simpl; [reflexivity|].
  now rewrite IH.
Qed.

Lemma length_slice0 (n : nat) (s : string) :
  String.length (slice0 n s) = Nat.min n (String.length s).
Proof.
  unfold slice0.
  revert n; induction s as [|c s IH]; intros [|n]; simpl; try reflexivity.
  now rewrite IH.
Qed.

Lemma append_inv_head (a b c : string) : (a ++ b = a ++ c)%string -> b = c.
Proof.
  induction a as [|x a IH]; simpl; intros H; [exact H|].
  injection H as H. now apply IH.
Qed.

Lemma append_inv_tail (a b c : string) : (a ++ c = b ++ c)%string -> a = b.
Proof.
  revert b; induction a as [|x a IH]; intros [|y b] H; simpl in H.
  - reflexivity.
  - apply (f_equal String.length) in H. simpl in H.
    rewrite length_append in H. lia.
  - apply (f_equal String.length) in H. simpl in H.
    rewrite length_append in H. lia.
  - injection H as Hxy H. subst y. f_equal. now apply IH.
Qed.

(** ** Progress tracker *)

Section ProgressFacts.
Context {N : Numbers}.

Lemma filter_passes_filter (items : list value) :
  Forall readable items ->
  filter_passes items = Ok (filter flag items).
Proof.
  induction 1 as [|f items [Hn Hu] _ IH]; simpl; [reflexivity|].
  rewrite IH.
  destruct f; try contradiction; reflexivity.
Qed.

Lemma filter_length_le {A} (p : A -> bool) (l : list A) :
  List.length (filter p l) <= List.length l.
Proof.
  induction l as [|x l IH]; simpl; [lia|].
  destruct (p x); simpl; lia.
Qed.

Lemma filter_length_perm {A} (p : A -> bool) (l l' : list A) :
  Permutation l l' ->
  List.length (filter p l) = List.length (filter p l').
Proof.
  induction 1 as [|x l l' _ IH|x y l|l l' l'' _ IH1 _ IH2]; simpl.
  - reflexivity.
  - destruct (p x); simpl; lia.
  - destruct (p x), (p y); reflexivity.
  - lia.
Qed.

(** On any value whose [features] property is an array of objects and
    primitives, [getProgress] counts the items and the truthy flags. *)
Lemma getProgress_array (v : value) (items : list value) :
  get v "features" = Ok (VArr items) ->
  Forall readable items ->
  getProgress v =
    Ok {| passing := List.length (filter flag items);
          total := List.length items |}.
Proof.
  intros Hget Hitems. unfold getProgress.
  rewrite Hget. simpl.
  now rewrite (filter_passes_filter Hitems).
Qed.

(** Whenever [getProgress] returns, the counts are ordered. *)
Lemma getProgress_bounds (v : value) (p : Progress) :
  getProgress v = Ok p -> passing p <= total p.
Proof.
  unfold getProgress.
  destruct (get v "features") as [list|]; simpl; try discriminate.
  destruct list as [| | | | |items|]; try discriminate.
  assert (H : forall kept, filter_passes items = Ok kept ->
                           List.length kept <= List.length items).
  { induction items as [|f items IH]; simpl; intros kept Hk.
    - injection Hk as <-. simpl. lia.
    - destruct (get f "passes") as [ps|]; simpl in Hk; try discriminate.
      destruct (filter_passes items) as [k|]; simpl in Hk; try discriminate.
      injection Hk as <-. specialize (IH k eq_refl).
      destruct (truthy ps); simpl; lia. }
  destruct (filter_passes items) as [kept|]; simpl; try discriminate.
  intros [= <-]. simpl. now apply H.
Qed.

Lemma Feature_values_readable (l : list Feature) :
  Forall readable (map Feature_value l).
Proof.
  induction l; simpl; constructor; auto.
  split; discriminate.
Qed.

Lemma flag_Feature_value (l : list Feature) :
  List.length (filter flag (map Feature_value l))
  = List.length (filter passes l).
Proof.
  induction l as [|f l IH]; simpl; [reflexivity|].
  destruct (passes f); simpl; now rewrite IH.
Qed.

(** C9.  [getProgress] is a fold over the feature list: on every
    well-formed [FeatureList], [total] is the number of features and
    [passing] the number of those whose [passes] is [true]; so
    [0 <= passing <= total]; and a permutation of the features leaves the
    result unchanged. *)
Theorem getProgress_is_a_fold (l l' : FeatureList) :
  Permutation (features l) (features l') ->
  getProgress (FeatureList_value l)
  = Ok {| passing := List.length (filter passes (features l));
          total := List.length (features l) |}
  /\ 0 <= List.length (filter passes (features l)) <= List.length (features l)
  /\ getProgress (FeatureList_value l') = getProgress (FeatureList_value l).
Proof.
  intros Hperm.
  assert (Hfold : forall k : FeatureList,
             getProgress (FeatureList_value k)
             = Ok {| passing := List.length (filter passes (features k));
                     total := List.length (features k) |}).
  { intros k.
    rewrite (@getProgress_array _ (map Feature_value (features k))).
    - now rewrite flag_Feature_value, length_map.
    - reflexivity.
    - apply Feature_values_readable. }
  split; [apply Hfold|]. split.
  - split; [lia|apply filter_length_le].
  - rewrite !Hfold.
    rewrite (filter_length_perm passes Hperm).
    now rewrite (Permutation_length Hperm).
Qed.

End ProgressFacts.

(** ** Prompt provider *)

(** C8.  For two different project specifications, the prompts of a phase
    are equal exactly when the phase is not [initializer]: the planner's
    and the coder's prompts do not depend on the specification, the
    initializer's does. *)
Theorem prompt_depends_on_spec_only_for_initializer
  (phase : AgentPhase) (s1 s2 : string) :
  s1 <> s2 ->
  (getPromptForPhase phase s1 = getPromptForPhase phase s2
   <-> phase <> initializer).
Proof.
  intros Hne. split.
  - intros Heq ->. apply Hne. simpl in Heq.
    unfold getInitializerPrompt in Heq.
    apply append_inv_head in Heq.
    now apply append_inv_tail in Heq.
  - destruct phase; [congruence|reflexivity|reflexivity].
Qed.

Lemma prompt_depends_on_spec_only_for_initializer_witness :
  "todo app" <> "REST API"
  /\ (getPromptForPhase planner "todo app"
      = getPromptForPhase planner "REST API"
      <-> planner <> initializer).
Proof.
  split.
  - discriminate.
  - apply (@prompt_depends_on_spec_only_for_initializer
             planner "todo app" "REST API").
    discriminate.
Defined.

(** ** Running computations *)

Section MonadFacts.
Context {N : Numbers} {W : Environment}.

Lemma agent_prompts_app (t1 t2 : trace) :
  agent_prompts (t1 ++ t2) = agent_prompts t1 ++ agent_prompts t2.
Proof.
  induction t1 as [|e t1 IH]; simpl; [reflexivity|].
  destruct e; simpl; now rewrite IH.
Qed.

Lemma pauses_app (t1 t2 : trace) :
  pauses (t1 ++ t2) = pauses t1 ++ pauses t2.
Proof.
  induction t1 as [|e t1 IH]; simpl; [reflexivity|].
  destruct e; simpl; now rewrite IH.
Qed.

Lemma silent_ret {A} (a : A) : silent (ret a).
Proof. intros w. reflexivity. Qed.

Lemma silent_lift {A} (c : result A) : silent (lift c).
Proof. intros w. reflexivity. Qed.

Lemma silent_bind {A B} (c : M A) (k : A -> M B) :
  silent c -> (forall a, silent (k a)) -> silent (bind c k).
Proof.
  intros Hc Hk w. unfold bind.
  specialize (Hc w).
  destruct (c w) as [[[a|e|code] t] w']; simpl in *; try assumption.
  specialize (Hk a w').
  destruct (k a w') as [[r t'] w'']; simpl in *.
  now rewrite agent_prompts_app, Hc, Hk.
Qed.

Lemma silent_try_catch {A} (c : M A) (h : thrown -> M A) :
  silent c -> (forall e, silent (h e)) -> silent (try_catch c h).
Proof.
  intros Hc Hh w. unfold try_catch.
  specialize (Hc w).
  destruct (c w) as [[[a|e|code] t] w']; simpl in *; try assumption.
  specialize (Hh e w').
  destruct (h e w') as [[r t'] w'']; simpl in *.
  now rewrite agent_prompts_app, Hc, Hh.
Qed.

Lemma silent_for_of {A} (xs : list A) (f : A -> M unit) :
  (forall x, silent (f x)) -> silent (for_of xs f).
Proof.
  intros Hf. induction xs as [|x xs IH]; simpl.
  - apply silent_ret.
  - apply silent_bind; auto.
Qed.

Lemma silent_if {A} (b : bool) (c1 c2 : M A) :
  silent c1 -> silent c2 -> silent (if b then c1 else c2).
Proof. now destruct b. Qed.

Lemma silent_log (t : text) : silent (log t).
Proof. intros w. reflexivity. Qed.

Lemma silent_error (t : text) : silent (error t).
Proof. intros w. reflexivity. Qed.

Lemma silent_Bun_sleep (ms : Z) : silent (Bun_sleep ms).
Proof. intros w. reflexivity. Qed.

Lemma silent_notify (message title : string) : silent (notify message title).
Proof.
  intros w. unfold notify.
  now destruct (spawn w _) as [[e|] w'].
Qed.

(** Once a computation has asked, a silent rest asks nothing more. *)
Lemma asks_bind_l {A B} (c : M A) (k : A -> M B) (ps : list string) :
  asks c ps -> (forall a, silent (k a)) -> asks (bind c k) ps.
Proof.
  intros Hc Hk w. unfold bind.
  specialize (Hc w).
  destruct (c w) as [[[a|e|code] t] w']; simpl in *; try assumption.
  specialize (Hk a w').
  destruct (k a w') as [[r t'] w'']; simpl in *.
  now rewrite agent_prompts_app, Hc, Hk, app_nil_r.
Qed.

Lemma asks_after_log {A} (t : text) (c : M A) (ps : list string) :
  asks c ps -> asks (log t ;; c) ps.
Proof.
  intros Hc w. unfold bind, log, emit.
  specialize (Hc w).
  destruct (c w) as [[r t'] w']; simpl in *. exact Hc.
Qed.

Lemma asks_try_catch {A} (c : M A) (h : thrown -> M A) (ps : list string) :
  asks c ps -> (forall e, silent (h e)) -> asks (try_catch c h) ps.
Proof.
  intros Hc Hh w. unfold try_catch.
  specialize (Hc w).
  destruct (c w) as [[[a|e|code] t] w']; simpl in *; try assumption.
  specialize (Hh e w').
  destruct (h e w') as [[r t'] w'']; simpl in *.
  now rewrite agent_prompts_app, Hc, Hh, app_nil_r.
Qed.

Lemma asks_sdk_query (q : Query) : asks (sdk_query q) [prompt q].
Proof.
  intros w. unfold sdk_query.
  now destruct (query w q) as [s w'].
Qed.

End MonadFacts.

(** ** Phase resolver *)

Create HintDb silent.

#[export] Hint Resolve silent_ret silent_lift silent_log silent_error
  silent_Bun_sleep silent_notify : silent.

(** Splits a computation along its binds and branches, down to steps that
    are known to be silent. *)
Ltac quiet :=
  repeat first
    [ progress auto with silent
    | apply silent_bind; [|intros ?]
    | apply silent_try_catch; [|intros ?]
    | apply silent_for_of; intros ?
    | apply silent_if
    | match goal with
      | |- silent (match ?x with _ => _ end) => destruct x
      | |- silent (let '(_, _) := ?x in _) => destruct x
      end ].

Section PhaseFacts.
Context {N : Numbers} {E : Engine} {W : Environment}.

Lemma read_result_null (w : world) (dir : string) :
  is_null (read_result w dir) = true <-> feature_list_on_disk w dir = None.
Proof.
  unfold read_result, feature_list_on_disk.
  destruct (existsSync w _); [|now split].
  destruct (readFileSync w _) as [content|]; [|now split].
  destruct (JSON_parse content) as [[]|]; simpl; split; congruence.
Qed.

(** [readFeatureList] always returns, and leaves the world as it was. *)
Lemma readFeatureList_returns (dir : string) (w : world) :
  exists t, readFeatureList dir w = (Returns (read_result w dir), t, w)
            /\ agent_prompts t = [] /\ pauses t = [].
Proof.
  unfold readFeatureList, read_result, feature_list_on_disk, bind, fs_exists.
  destruct (existsSync w _); simpl; [|eauto].
  unfold try_catch, bind, fs_read, lift, parse.
  destruct (readFileSync w _) as [content|]; simpl; [|eauto].
  destruct (JSON_parse content) as [[]|]; simpl; eauto.
Qed.

Lemma silent_readFeatureList (dir : string) : silent (readFeatureList dir).
Proof.
  intros w. destruct (readFeatureList_returns dir w) as (t & -> & Ht & _).
  exact Ht.
Qed.

Lemma determinePhase_returns (dir : string) (w : world) :
  exists t,
    determinePhase dir w
    = (Returns match feature_list_on_disk w dir with
          | None => initializer
          | Some _ => if plan_on_disk w dir then coder else planner
          end, t, w)
    /\ agent_prompts t = [] /\ pauses t = [].
Proof.
  unfold determinePhase, bind.
  destruct (readFeatureList_returns dir w) as (t & -> & Ht & Hp).
  pose proof (read_result_null w dir) as Hnull.
  destruct (is_null (read_result w dir)).
  - rewrite (proj1 Hnull eq_refl). simpl. rewrite app_nil_r. eauto.
  - destruct (feature_list_on_disk w dir) as [v|].
    + unfold planExists, fs_exists, plan_on_disk. simpl.
      destruct (existsSync w _); simpl;
        (eexists; split; [reflexivity|]);
        rewrite agent_prompts_app, pauses_app, Ht, Hp; now split.
    + discriminate (proj2 Hnull eq_refl).
Qed.

#[local] Hint Resolve silent_readFeatureList : silent.

Lemma silent_check_progress (o : Options) : silent (check_progress o).
Proof.
  unfold check_progress.
  apply silent_bind; [apply silent_readFeatureList|intros fl].
  quiet.
Qed.

#[local] Hint Resolve silent_check_progress : silent.

Lemma silent_on_item (verbose : bool) (i : item) : silent (on_item verbose i).
Proof.
  destruct i as [m|data]; simpl; [|quiet].
  unfold on_message. apply silent_bind; [quiet|intros _].
  destruct m as [? ? ? ?|? [content|]|[content|]|? ? ? [errs|]|? ?|?|? ?];
    quiet.
  - destruct x; simpl; quiet. intros w. reflexivity.
  - destruct x; simpl; quiet.
Qed.

Lemma silent_report (verbose : bool) (e : thrown) : silent (report verbose e).
Proof.
  unfold report. quiet; intros w; reflexivity.
Qed.

Lemma asks_runAgent (prompt cwd model : string) (verbose : bool) :
  asks (runAgent prompt cwd model verbose) [prompt].
Proof.
  unfold runAgent. apply asks_after_log.
  apply asks_try_catch; [|intros e; apply silent_report].
  unfold consume.
  apply asks_bind_l with (c := sdk_query (session_query prompt cwd model verbose));
    [apply asks_sdk_query|intros s].
  apply silent_bind; [apply silent_for_of, silent_on_item|intros _].
  quiet. intros w. reflexivity.
Qed.

Lemma silent_TwoPhase_on_item (i : item) : silent (TwoPhase.on_item i).
Proof.
  destruct i as [m|data]; simpl; [|quiet].
  destruct m as [? ? ? ?|[content|] ?|?|? ? ? ?|? ?|?|? ?]; quiet;
    intros w; reflexivity.
Qed.

Lemma asks_TwoPhase_runAgent (prompt cwd : string) :
  asks (TwoPhase.runAgent prompt cwd) [prompt].
Proof.
  unfold TwoPhase.runAgent. apply asks_after_log.
  apply asks_bind_l with (c := sdk_query (TwoPhase.session_query prompt cwd));
    [apply asks_sdk_query|intros s].
  apply silent_bind; [apply silent_for_of, silent_TwoPhase_on_item|intros _].
  quiet. intros w. reflexivity.
Qed.

Lemma silent_TwoPhase_check_progress (o : TwoPhase.Options) :
  silent (TwoPhase.check_progress o).
Proof.
  unfold TwoPhase.check_progress.
  apply silent_bind; [apply silent_readFeatureList|intros fl].
  quiet.
Qed.

#[local] Hint Resolve silent_TwoPhase_check_progress : silent.

(** A silent first step that returns hands the question to the rest. *)
Lemma asks_after {A B} (c : M A) (k : A -> M B) (ps : list string)
  (w w' : world) (a : A) (t : trace) :
  c w = (Returns a, t, w') ->
  agent_prompts t = [] ->
  agent_prompts (snd (fst (k a w'))) = ps ->
  agent_prompts (snd (fst (bind c k w))) = ps.
Proof.
  intros Hc Ht Hk. unfold bind. rewrite Hc.
  destruct (k a w') as [[r t'] w'']; simpl in *.
  now rewrite agent_prompts_app, Ht.
Qed.

Lemma prompts_after_log {A} (x : text) (c : M A) (w : world) :
  agent_prompts (snd (fst ((log x ;; c) w)))
  = agent_prompts (snd (fst (c w))).
Proof.
  unfold bind, log, emit.
  now destruct (c w) as [[r t'] w'].
Qed.

(** The phase a session of the three-phase harness runs is the one
    [determinePhase] resolves. *)
Lemma session_body_asks (o : Options) (session : Z) (w : world) :
  agent_prompts (snd (fst (session_body o session w)))
  = [getPromptForPhase
       match feature_list_on_disk w (dir o) with
       | None => initializer
       | Some _ => if plan_on_disk w (dir o) then coder else planner
       end (projectSpec o)].
Proof.
  unfold session_body.
  rewrite prompts_after_log.
  destruct (determinePhase_returns (dir o) w) as (t & Hrun & Ht & _).
  eapply asks_after; [exact Hrun|exact Ht|].
  rewrite prompts_after_log.
  apply asks_bind_l; [apply asks_runAgent|intros success].
  destruct success; simpl; quiet.
Qed.

Lemma TwoPhase_session_body_asks (o : TwoPhase.Options) (session : Z)
  (w : world) :
  agent_prompts (snd (fst (TwoPhase.session_body o session w)))
  = [match feature_list_on_disk w (TwoPhase.dir o) with
     | None => getInitializerPrompt (TwoPhase.projectSpec o)
     | Some _ => TwoPhase.getCoderPrompt
     end].
Proof.
  unfold TwoPhase.session_body.
  rewrite prompts_after_log.
  destruct (readFeatureList_returns (TwoPhase.dir o) w) as (t & Hrun & Ht & _).
  eapply asks_after; [exact Hrun|exact Ht|].
  pose proof (read_result_null w (TwoPhase.dir o)) as Hnull.
  assert (Hrest : forall u : unit,
             silent (after <- TwoPhase.check_progress o ;;
                     match after with
                     | stop => ret stop
                     | next => Bun_sleep 2000 ;; ret next
                     end)).
  { intros _. quiet. }
  destruct (is_null (read_result w (TwoPhase.dir o))).
  - rewrite (proj1 Hnull eq_refl).
    apply asks_bind_l; [|exact Hrest].
    apply asks_after_log, asks_TwoPhase_runAgent.
  - destruct (feature_list_on_disk w (TwoPhase.dir o)) as [v|];
      [|discriminate (proj2 Hnull eq_refl)].
    apply asks_bind_l; [|exact Hrest].
    apply asks_after_log, asks_TwoPhase_runAgent.
Qed.

(** C3.  Phase resolution is total and deterministic: in every world
    [determinePhase] returns, without changing the world, [initializer]
    when the directory holds no feature list, [planner] when it holds a
    list and no plan, [coder] when it holds both; the session of the
    three-phase harness runs the prompt of that phase; the session of the
    two-phase harness runs the initializer's prompt without a list and the
    coder's with one, plan or no plan. *)
Theorem resolvePhase_total_and_tabulated
  (w : world) (options : Options) (options2 : TwoPhase.Options)
  (session : Z) :
  (exists t,
     determinePhase (dir options) w
     = (Returns match feature_list_on_disk w (dir options) with
           | None => initializer
           | Some _ => if plan_on_disk w (dir options) then coder else planner
           end, t, w))
  /\ agent_prompts (snd (fst (session_body options session w)))
     = [getPromptForPhase
          match feature_list_on_disk w (dir options) with
          | None => initializer
          | Some _ => if plan_on_disk w (dir options) then coder else planner
          end (projectSpec options)]
  /\ agent_prompts (snd (fst (TwoPhase.session_body options2 session w)))
     = [match feature_list_on_disk w (TwoPhase.dir options2) with
        | None => getInitializerPrompt (TwoPhase.projectSpec options2)
        | Some _ => TwoPhase.getCoderPrompt
        end].
Proof.
  split; [|split].
  - destruct (determinePhase_returns (dir options) w) as (t & Hrun & _).
    now exists t.
  - apply session_body_asks.
  - apply TwoPhase_session_body_asks.
Qed.

(** C4.  When the feature list file exists and its text does not parse,
    [readFeatureList] logs its diagnostic and returns [null]; nothing is
    thrown; [determinePhase] then returns [initializer], as it does when
    the file is absent. *)
Theorem malformed_feature_list_is_absent
  (dir : string) (w : world) (content : string) :
  existsSync w (resolve [dir; "feature_list.json"]) = true ->
  readFileSync w (resolve [dir; "feature_list.json"]) = Some content ->
  JSON_parse content = None ->
  readFeatureList dir w
  = (Returns VNull,
     [existsSync_call (resolve [dir; "feature_list.json"]);
      readFileSync_call (resolve [dir; "feature_list.json"]);
      console_error [str "Failed to parse feature_list.json"]], w)
  /\ determinePhase dir w
     = (Returns initializer,
        [existsSync_call (resolve [dir; "feature_list.json"]);
         readFileSync_call (resolve [dir; "feature_list.json"]);
         console_error [str "Failed to parse feature_list.json"]], w)
  /\ (forall w0 : world,
        existsSync w0 (resolve [dir; "feature_list.json"]) = false ->
        fst (fst (determinePhase dir w0)) = fst (fst (determinePhase dir w))).
Proof.
  intros Hexists Hread Hparse.
  assert (Hlist : readFeatureList dir w
                  = (Returns VNull,
                     [existsSync_call (resolve [dir; "feature_list.json"]);
                      readFileSync_call (resolve [dir; "feature_list.json"]);
                      console_error [str "Failed to parse feature_list.json"]],
                     w)).
  { unfold readFeatureList, bind, fs_exists. rewrite Hexists. simpl.
    unfold try_catch, bind, fs_read, lift, parse.
    rewrite Hread. simpl. rewrite Hparse. reflexivity. }
  assert (Hphase : determinePhase dir w
                   = (Returns initializer,
                      [existsSync_call (resolve [dir; "feature_list.json"]);
                       readFileSync_call (resolve [dir; "feature_list.json"]);
                       console_error [str "Failed to parse feature_list.json"]],
                      w)).
  { unfold determinePhase, bind. rewrite Hlist. reflexivity. }
  split; [exact Hlist|]. split; [exact Hphase|].
  intros w0 Habsent. rewrite Hphase.
  unfold determinePhase, readFeatureList, bind, fs_exists.
  rewrite Habsent. reflexivity.
Qed.

End PhaseFacts.

(** ** Event stream classifier *)

Section ClassifierFacts.
Context {N : Numbers} {E : Engine} {W : Environment}.

(** *** Truncation *)

Lemma truncate_bound (cap : nat) (s : string) :
  String.length (truncate cap s) <= cap + 3.
Proof.
  unfold truncate.
  destruct (Nat.ltb_spec cap (String.length s)) as [Hlong|Hshort].
  - rewrite length_append, length_slice0. simpl. lia.
  - lia.
Qed.

Lemma truncate_short (cap : nat) (s : string) :
  String.length s <= cap -> truncate cap s = s.
Proof.
  intros Hshort. unfold truncate.
  destruct (Nat.ltb_spec cap (String.length s)); [lia|reflexivity].
Qed.

Lemma truncate_long (cap : nat) (s : string) :
  cap < String.length s -> truncate cap s = (slice0 cap s ++ "...")%string.
Proof.
  intros Hlong. unfold truncate.
  destruct (Nat.ltb_spec cap (String.length s)); [reflexivity|lia].
Qed.

(** On a string the dynamic expression is [truncate]. *)
Lemma truncate_value_string (cap : nat) (s : string) :
  truncate_value cap (VStr s) = Ok (VStr (truncate cap s)).
Proof.
  unfold truncate_value, truncate. simpl.
  now destruct (cap <? String.length s)%nat.
Qed.

(** The input of a tool invocation is shown in at most 200 characters and
    the ellipsis. *)
Lemma tool_input_display_bound (input : value) (shown : string) :
  tool_input_display input = Ok shown -> String.length shown <= 200 + 3.
Proof.
  unfold tool_input_display.
  destruct (JSON_stringify input) as [inputStr|]; [|discriminate].
  intros [= <-]. apply truncate_bound.
Qed.

(** A tool result whose unwrapped value is a string is shown in at most
    the cap of the verbosity and the ellipsis. *)
Lemma tool_result_display_bound (verbose : bool) (content : value)
  (r : string) :
  unwrap (result_string content) = VStr r ->
  tool_result_display verbose content
  = Ok (truncate (if verbose then 2000 else 500) r)
  /\ String.length (truncate (if verbose then 2000 else 500) r)
     <= (if verbose then 2000 else 500) + 3.
Proof.
  intros Hr. unfold tool_result_display. rewrite Hr.
  rewrite truncate_value_string. simpl.
  split; [reflexivity|apply truncate_bound].
Qed.

(** *** The unwrap of a tool result *)

Lemma or_empty_cases (v : value) :
  (truthy v = true -> or_empty v = v)
  /\ (truthy v = false -> or_empty v = VStr "(empty)").
Proof.
  unfold or_empty. destruct (truthy v); split; congruence.
Qed.

Lemma array_with_text_inv (parsed : value) :
  array_with_text parsed = true ->
  exists item rest text,
    parsed = VArr (item :: rest)
    /\ get item "text" = Ok text /\ truthy text = true.
Proof.
  destruct parsed as [| | | | |items|]; simpl; try discriminate.
  destruct items as [|item rest]; simpl; [discriminate|].
  destruct item; simpl; try discriminate; intros Ht.
  do 3 eexists. split; [reflexivity|]. split; [reflexivity|exact Ht].
Qed.

Lemma get_defined_inv (v output : value) (k : string) :
  get v k = Ok output -> output <> VUndefined ->
  exists fields, v = VObj fields /\ lookup k fields = output.
Proof.
  destruct v; simpl; try discriminate; intros [= <-] Hdef;
    try contradiction; eauto.
Qed.

Lemma is_undefined_false (v : value) :
  is_undefined v = false <-> v <> VUndefined.
Proof. destruct v; simpl; split; congruence. Qed.

(** What the [try] block does when it changes [resultStr]. *)
Lemma unwrap_try_replaces (s : string) (v : value) :
  unwrap_try (Some s) = Ok v -> v <> VStr s ->
  includes s (quoted "output") || includes s "output:" = true
  /\ exists parsed output,
       JSON_parse s = Some parsed
       /\ output <> VUndefined
       /\ v = or_empty output
       /\ ((exists item rest text source inner,
               parsed = VArr (item :: rest)
               /\ get item "text" = Ok text /\ truthy text = true
               /\ ToString text = Ok source
               /\ JSON_parse source = Some inner
               /\ get inner "output" = Ok output)
           \/ (array_with_text parsed = false
               /\ exists fields,
                    parsed = VObj fields /\ lookup "output" fields = output)).
Proof.
  unfold unwrap_try.
  destruct (includes s (quoted "output") || includes s "output:");
    [|intros [= <-] Hne; now destruct Hne].
  unfold parse at 1.
  destruct (JSON_parse s) as [parsed|]; simpl; [|discriminate].
  intros Hrun Hne. split; [reflexivity|].
  destruct (array_with_text parsed) eqn:Harr.
  - destruct (array_with_text_inv _ Harr) as (item & rest & text & -> & Ht & Htruthy).
    simpl in Hrun. rewrite Ht in Hrun. simpl in Hrun.
    destruct (ToString text) as [source|] eqn:Hsource; simpl in Hrun;
      [|discriminate].
    unfold parse in Hrun.
    destruct (JSON_parse source) as [inner|] eqn:Hinner; simpl in Hrun;
      [|discriminate].
    destruct (get inner "output") as [output|] eqn:Hout; simpl in Hrun;
      [|discriminate].
    destruct (is_undefined output) eqn:Hundef; simpl in Hrun;
      injection Hrun as <-; [now destruct Hne|].
    exists (VArr (item :: rest)), output.
    split; [reflexivity|]. split; [now apply is_undefined_false|].
    split; [reflexivity|].
    left. exists item, rest, text, source, inner. now repeat split.
  - destruct (get parsed "output") as [output|] eqn:Hout; simpl in Hrun;
      [|discriminate].
    destruct (is_undefined output) eqn:Hundef; simpl in Hrun;
      injection Hrun as <-; [now destruct Hne|].
    apply is_undefined_false in Hundef.
    exists parsed, output.
    split; [reflexivity|]. split; [exact Hundef|]. split; [reflexivity|].
    right. split; [exact Harr|].
    now apply get_defined_inv.
Qed.

(** C6, as the code has it.  The unwrap never throws: whatever its [try]
    block throws, [resultStr] keeps the original string, and so it does
    when [JSON.parse] fails.  [resultStr] is replaced only when the string
    contains the [output] marker and parses to an array whose first item,
    the only one or not, has a truthy [text] that parses to a value
    with an [output], or to an object with an [output]; it is then that
    [output], or [(empty)] when it is falsy. *)
Theorem unwrap_keeps_or_replaces (s : string) :
  (forall e, unwrap_try (Some s) = Throw e -> unwrap (Some s) = VStr s)
  /\ (JSON_parse s = None -> unwrap (Some s) = VStr s)
  /\ (unwrap (Some s) <> VStr s ->
      includes s (quoted "output") || includes s "output:" = true
      /\ exists parsed output,
           JSON_parse s = Some parsed
           /\ output <> VUndefined
           /\ unwrap (Some s) = or_empty output
           /\ (truthy output = true -> unwrap (Some s) = output)
           /\ (truthy output = false -> unwrap (Some s) = VStr "(empty)")
           /\ ((exists item rest text source inner,
                   parsed = VArr (item :: rest)
                   /\ get item "text" = Ok text /\ truthy text = true
                   /\ ToString text = Ok source
                   /\ JSON_parse source = Some inner
                   /\ get inner "output" = Ok output)
               \/ (array_with_text parsed = false
                   /\ exists fields,
                        parsed = VObj fields
                        /\ lookup "output" fields = output))).
Proof.
  split; [|split].
  - intros e He. unfold unwrap. now rewrite He.
  - intros Hparse. unfold unwrap, unwrap_try, parse. rewrite Hparse.
    now destruct (includes s (quoted "output") || includes s "output:").
  - unfold unwrap.
    destruct (unwrap_try (Some s)) as [v|e] eqn:Hrun;
      [|intros Hne; now destruct Hne].
    intros Hne.
    destruct (unwrap_try_replaces Hrun Hne)
      as (Hmark & parsed & output & Hparse & Hdef & -> & Hshape).
    split; [exact Hmark|].
    exists parsed, output.
    destruct (or_empty_cases output) as [Htrue Hfalse].
    repeat split; auto.
Qed.

(** *** The session runner *)

Lemma stateless_ret {A} (a : A) : stateless (ret a).
Proof. exists (Returns a), []. split; [reflexivity|discriminate]. Qed.

Lemma stateless_emit (e : effect) : stateless (emit e).
Proof. exists (Returns tt), [e]. split; [reflexivity|discriminate]. Qed.

Lemma stateless_lift {A} (c : result A) : stateless (lift c).
Proof.
  destruct c as [a|e]; eexists; exists []; (split; [reflexivity|discriminate]).
Qed.

Lemma stateless_bind {A B} (c : M A) (k : A -> M B) :
  stateless c -> (forall a, stateless (k a)) -> stateless (bind c k).
Proof.
  intros (r & t & Hc & Hr) Hk. unfold bind.
  destruct r as [a|e|code].
  - destruct (Hk a) as (r' & t' & Hka & Hr').
    exists r', (t ++ t'). split; [|exact Hr'].
    intros w. now rewrite Hc, Hka.
  - exists (Throws e), t. split; [|discriminate].
    intros w. now rewrite Hc.
  - now destruct (Hr code).
Qed.

Lemma stateless_for_of {A} (xs : list A) (f : A -> M unit) :
  (forall x, stateless (f x)) -> stateless (for_of xs f).
Proof.
  intros Hf. induction xs as [|x xs IH]; simpl.
  - apply stateless_ret.
  - apply stateless_bind; auto.
Qed.

Lemma stateless_on_item (verbose : bool) (i : item) :
  stateless (on_item verbose i).
Proof.
  assert (Hlog : forall x, stateless (log x))
    by (intros x; apply stateless_emit).
  assert (Herr : forall x, stateless (error x))
    by (intros x; apply stateless_emit).
  destruct i as [m|data]; simpl.
  - unfold on_message. apply stateless_bind.
    { destruct verbose; [apply Hlog|apply stateless_ret]. }
    intros _.
    destruct m as [subtype ? ? ?|? [content|]|[content|]
                  |subtype ? ? [errs|]|? ?|?|? ?].
    + destruct (subtype =? "init")%string.
      * apply stateless_bind; [apply Hlog|intros _; apply Hlog].
      * destruct verbose; [apply Hlog|apply stateless_ret].
    + apply stateless_for_of. intros [text|name input|content'|type]; simpl;
        try apply stateless_ret; try apply stateless_emit.
      apply stateless_bind; [apply stateless_lift|intros s; apply Hlog].
    + apply stateless_ret.
    + apply stateless_for_of. intros [text|name input|content'|type]; simpl;
        try apply stateless_ret.
      apply stateless_bind; [apply stateless_lift|intros s; apply Hlog].
    + apply stateless_ret.
    + destruct (subtype =? "success")%string; [apply Hlog|].
      apply stateless_bind; [apply Herr|intros _].
      apply stateless_for_of. intros err. apply Herr.
    + destruct (subtype =? "success")%string; [apply Hlog|].
      apply stateless_bind; [apply Herr|intros _; apply stateless_ret].
    + destruct verbose; [apply Hlog|apply stateless_ret].
    + destruct verbose; [apply Hlog|apply stateless_ret].
    + apply stateless_ret.
  - destruct verbose; [apply Herr|apply stateless_ret].
Qed.

(** The loop over a stream's items returns or throws, and the world is
    the one the session left. *)
Lemma for_of_items (verbose : bool) (s : stream) (w : world) :
  exists r,
    for_of (items s) (on_item verbose) w = (r, shown verbose s w, w)
    /\ ((r = Returns tt /\ raised verbose s w = ending s)
        \/ (exists e, r = Throws e /\ raised verbose s w = Some e)).
Proof.
  unfold raised, shown.
  destruct (@stateless_for_of _ (items s) (on_item verbose)
              (stateless_on_item verbose)) as (r & t & Hrun & Hr).
  rewrite Hrun. simpl. exists r. split; [reflexivity|].
  destruct r as [[]|e|code]; [now left|right; now exists e|].
  now destruct (Hr code).
Qed.

(** How [runAgent] ends, by what is thrown inside its [try] block. *)
Lemma runAgent_runs (prompt cwd model : string) (verbose : bool)
  (w : world) :
  runAgent prompt cwd model verbose w
  = let q := session_query prompt cwd model verbose in
    let s := fst (query w q) in
    let w1 := snd (query w q) in
    (Returns match raised verbose s w1 with
             | None => true
             | Some _ => false
             end,
     console_log [str (nl ++ "--- Agent session starting ---" ++ nl)%string]
       :: query_call q
       :: shown verbose s w1
       ++ match raised verbose s w1 with
          | None =>
              [console_log
                 [str (nl ++ "--- Agent session ended ---" ++ nl)%string]]
          | Some e => report_trace verbose e
          end,
     w1).
Proof.
  cbv zeta.
  unfold runAgent, consume, try_catch, bind, log, emit, sdk_query.
  destruct (query w (session_query prompt cwd model verbose)) as [s w1].
  simpl fst. simpl snd.
  destruct (for_of_items verbose s w1) as (r & -> & [[-> ->]|(e & -> & ->)]).
  - cbn. destruct (ending s) as [e|]; cbn.
    + unfold report, report_trace, bind, error, emit, ret. cbn.
      destruct (stack_of e) as [stack|]; [destruct verbose|]; cbn;
        now rewrite ?app_nil_r.
    + now rewrite ?app_nil_r.
  - cbn. unfold report, report_trace, bind, error, emit, ret. cbn.
    destruct (stack_of e) as [stack|]; [destruct verbose|]; cbn;
      now rewrite ?app_nil_r.
Qed.

(** A terminal result whose subtype is not [success] prints an error
    line and each of its error messages, and the loop goes on. *)
Lemma on_result_error (verbose : bool) (subtype : string)
  (num_turns total_cost_usd : number) (errors : option (list string))
  (w : world) :
  (subtype =? "success")%string = false ->
  on_item verbose
    (message (result_message subtype num_turns total_cost_usd errors)) w
  = (Returns tt,
     (if verbose then
        [console_log
           [pc dim (str "[message] type=" +++ str "result"
                    +++ str " subtype=" +++ str subtype)]]
      else [])
     ++ console_error
          [str nl +++ pc red (str "[result] Error: " +++ str subtype)]
     :: map (fun err => console_error [str "  " +++ str err])
          match errors with
          | Some errs => errs
          | None => []
          end,
     w).
Proof.
  intros Hsub. simpl. unfold on_message. rewrite Hsub.
  assert (Heach : forall errs : list string,
             for_of errs (fun err => error (str "  " +++ str err)) w
             = (Returns tt,
                map (fun err => console_error [str "  " +++ str err]) errs,
                w)).
  { induction errs as [|err errs IH]; simpl; [reflexivity|].
    unfold bind at 1. unfold error at 1. unfold emit at 1.
    now rewrite IH. }
  destruct verbose, errors as [errs|];
    unfold bind, log, error, emit, ret; cbn;
    rewrite ?Heach; cbn; now rewrite ?app_nil_r.
Qed.

(** A stream of results only throws only at its end. *)
Lemma raised_results_only (verbose : bool) (s : stream) (w : world) :
  Forall (fun i => exists subtype num_turns total_cost_usd errors,
              i = message (result_message subtype num_turns total_cost_usd
                             errors)) (items s) ->
  raised verbose s w = ending s.
Proof.
  unfold raised. intros Hall.
  assert (Hrun : fst (fst (for_of (items s) (on_item verbose) w))
                 = Returns tt).
  { induction Hall as [|i l (subtype & nt & cost & errs & ->) _ IH];
      [reflexivity|].
    cbn [for_of]. unfold bind at 1.
    destruct (stateless_on_item verbose
                (message (result_message subtype nt cost errs)))
      as (r & t & Hi & _).
    assert (Hr : r = Returns tt).
    { specialize (Hi w).
      destruct (subtype =? "success")%string eqn:Hsub.
      - simpl in Hi. unfold on_message in Hi. rewrite Hsub in Hi.
        destruct verbose; cbn in Hi; congruence.
      - rewrite (on_result_error verbose _ _ _ errs w Hsub) in Hi.
        congruence. }
    rewrite Hi, Hr.
    destruct (for_of l (on_item verbose) w) as [[r' t'] w']. simpl in *.
    exact IH. }
  now rewrite Hrun.
Qed.

Lemma for_of_throws (verbose : bool) (l : list item) (w : world) (e : thrown) :
  fst (fst (for_of l (on_item verbose) w)) = Throws e
  <-> exists before i after,
        l = before ++ i :: after
        /\ Forall (handled verbose w) before
        /\ fst (fst (on_item verbose i w)) = Throws e.
Proof.
  induction l as [|i l IH]; cbn [for_of].
  - split; [discriminate|].
    intros (before & i & after & Hl & _). now destruct before.
  - unfold bind at 1.
    destruct (stateless_on_item verbose i) as (r & t & Hi & Hr).
    rewrite Hi.
    destruct r as [[]|e'|code]; [| |now destruct (Hr code)].
    + destruct (for_of l (on_item verbose) w) as [[r' t'] w'] eqn:Hl.
      simpl in *. rewrite IH. split.
      * intros (before & j & after & -> & Hb & Hj).
        exists (i :: before), j, after. split; [reflexivity|].
        split; [|exact Hj]. constructor; [|exact Hb].
        unfold handled. now rewrite Hi.
      * intros (before & j & after & Heq & Hb & Hj).
        destruct before as [|i' before]; simpl in Heq;
          injection Heq as -> ->.
        -- rewrite Hi in Hj. discriminate.
        -- inversion Hb; subst. now exists before, j, after.
    + simpl. split.
      * intros [= ->]. exists [], i, l. split; [reflexivity|].
        split; [constructor|]. now rewrite Hi.
      * intros (before & j & after & Heq & Hb & Hj).
        destruct before as [|i' before]; simpl in Heq;
          injection Heq as -> ->.
        -- rewrite Hi in Hj. exact Hj.
        -- inversion Hb as [|? ? Hh _]; subst.
           unfold handled in Hh. rewrite Hi in Hh. discriminate.
Qed.

Lemma for_of_returns (verbose : bool) (l : list item) (w : world) :
  fst (fst (for_of l (on_item verbose) w)) = Returns tt
  <-> Forall (handled verbose w) l.
Proof.
  induction l as [|i l IH]; cbn [for_of].
  - split; [constructor|reflexivity].
  - unfold bind at 1.
    destruct (stateless_on_item verbose i) as (r & t & Hi & Hr).
    rewrite Hi.
    destruct r as [[]|e'|code]; [| |now destruct (Hr code)].
    + destruct (for_of l (on_item verbose) w) as [[r' t'] w'] eqn:Hl.
      simpl in *. rewrite IH. split.
      * intros Hall. constructor; [|exact Hall].
        unfold handled. now rewrite Hi.
      * intros Hall. now inversion Hall.
    + simpl. split; [discriminate|].
      intros Hall. inversion Hall as [|? ? Hh _]; subst.
      unfold handled in Hh. rewrite Hi in Hh. discriminate.
Qed.

Lemma raised_iff (verbose : bool) (s : stream) (w : world) (e : thrown) :
  raised verbose s w = Some e <-> thrown_while_iterating verbose s w e.
Proof.
  unfold raised, thrown_while_iterating.
  pose proof (for_of_throws verbose (items s) w) as Hthrows.
  pose proof (for_of_returns verbose (items s) w) as Hreturns.
  destruct (for_of_items verbose s w) as (r & Hrun & _).
  rewrite Hrun in *. simpl in *.
  destruct r as [[]|e'|code].
  - split.
    + intros Hend. right. split; [now apply Hreturns|exact Hend].
    + intros [Hex|[_ Hend]]; [|exact Hend].
      apply Hthrows in Hex. discriminate.
  - split.
    + intros [= ->]. left. now apply Hthrows.
    + intros [Hex|[Hall _]].
      * apply Hthrows in Hex. congruence.
      * apply Hreturns in Hall. discriminate.
  - split; [discriminate|].
    intros [Hex|[Hall _]].
    + apply Hthrows in Hex. discriminate.
    + apply Hreturns in Hall. discriminate.
Qed.
(** C2.  [runAgent] never throws: it returns a boolean, [false] exactly
    when something is thrown while the stream is iterated, by the stream
    when a message is pulled or by the loop body on a message; it then
    reports the message, and the stack when verbose.  Otherwise the stream
    is consumed to its end and [runAgent] returns [true]; a terminal
    result whose subtype is not [success] prints its error line and each
    of its error messages, and a stream of such results that ends normally
    still gives [true]. *)
Theorem runAgent_false_iff_thrown (prompt cwd model : string)
  (verbose : bool) (w : world) :
  let q := session_query prompt cwd model verbose in
  let s := fst (query w q) in
  let w1 := snd (query w q) in
  let starting :=
    console_log [str (nl ++ "--- Agent session starting ---" ++ nl)%string] in
  let ended :=
    console_log [str (nl ++ "--- Agent session ended ---" ++ nl)%string] in
  (fst (fst (runAgent prompt cwd model verbose w)) = Returns false
   <-> exists e, thrown_while_iterating verbose s w1 e)
  /\ (forall e,
        thrown_while_iterating verbose s w1 e ->
        runAgent prompt cwd model verbose w
        = (Returns false,
           starting :: query_call q
             :: shown verbose s w1 ++ report_trace verbose e, w1))
  /\ ((forall e, ~ thrown_while_iterating verbose s w1 e) ->
      runAgent prompt cwd model verbose w
      = (Returns true,
         starting :: query_call q :: shown verbose s w1 ++ [ended], w1))
  /\ (forall subtype num_turns total_cost_usd errors w',
        (subtype =? "success")%string = false ->
        on_item verbose
          (message (result_message subtype num_turns total_cost_usd errors))
          w'
        = (Returns tt,
           (if verbose then
              [console_log
                 [pc dim (str "[message] type=" +++ str "result"
                          +++ str " subtype=" +++ str subtype)]]
            else [])
           ++ console_error
                [str nl +++ pc red (str "[result] Error: " +++ str subtype)]
           :: map (fun err => console_error [str "  " +++ str err])
                match errors with
                | Some errs => errs
                | None => []
                end,
           w'))
  /\ (Forall (fun i => exists subtype num_turns total_cost_usd errors,
                 i = message (result_message subtype num_turns
                                total_cost_usd errors)) (items s) ->
      ending s = None ->
      fst (fst (runAgent prompt cwd model verbose w)) = Returns true).
Proof.
  cbv zeta.
  pose proof (runAgent_runs prompt cwd model verbose w) as Hrun.
  cbv zeta in Hrun.
  set (q := session_query prompt cwd model verbose) in *.
  set (s := fst (query w q)) in *.
  set (w1 := snd (query w q)) in *.
  pose proof (raised_iff verbose s w1) as Hiff.
  split; [|split; [|split; [|split]]].
  - rewrite Hrun. simpl.
    destruct (raised verbose s w1) as [e|]; split.
    + intros _. exists e. now apply Hiff.
    + reflexivity.
    + discriminate.
    + intros (e & He). apply Hiff in He. discriminate.
  - intros e He. apply Hiff in He. rewrite Hrun, He. reflexivity.
  - intros Hnone. rewrite Hrun.
    destruct (raised verbose s w1) as [e|]; [|reflexivity].
    destruct (Hnone e). now apply Hiff.
  - intros. now apply on_result_error.
  - intros Hall Hend. rewrite Hrun. simpl.
    now rewrite (raised_results_only verbose _ _ Hall), Hend.
Qed.

End ClassifierFacts.

(** ** Session orchestrator *)

Section OrchestratorFacts.
Context {N : Numbers} {E : Engine} {W : Environment}.

Lemma determinePhase_resolved (dir : string) (w : world) :
  determinePhase dir w
  = (Returns (resolved w dir), snd (fst (determinePhase dir w)), w).
Proof.
  destruct (determinePhase_returns dir w) as (t & Hrun & _).
  now rewrite Hrun.
Qed.

(** The agent session of a session always returns a boolean. *)
Lemma session_run_returns (o : Options) (w : world) :
  exists b : bool,
    session_run o w
    = (Returns b, snd (fst (session_run o w)), snd (session_run o w)).
Proof.
  unfold session_run. rewrite runAgent_runs. cbv zeta. eauto.
Qed.

(** A session whose agent session failed. *)
Lemma session_body_failed (o : Options) (session : Z) (w : world) :
  fst (fst (session_run o w)) = Returns false ->
  session_body o session w
  = (Returns next,
     session_prefix o session w
     ++ [console_log [pc yellow (str "Session failed, retrying after delay...")];
         sleep_call 5000],
     sleep (snd (session_run o w)) 5000).
Proof.
  intros Hfail.
  destruct (session_run_returns o w) as (b & Hrun).
  rewrite Hrun in Hfail. simpl in Hfail. injection Hfail as ->.
  unfold session_body, session_prefix.
  unfold bind at 1. unfold log at 1. unfold emit at 1.
  unfold bind at 1. rewrite determinePhase_resolved.
  unfold bind at 1. unfold log at 1. unfold emit at 1.
  unfold bind at 1. fold (session_run o w). rewrite Hrun.
  cbn -[session_run]. rewrite <- !app_assoc. reflexivity.
Qed.

(** A session whose agent session returned [true]: the progress check
    decides. *)
Lemma session_body_succeeded (o : Options) (session : Z) (w : world) :
  fst (fst (session_run o w)) = Returns true ->
  session_body o session w
  = match check_progress o (snd (session_run o w)) with
    | (Returns next, t, w') =>
        (Returns next,
         session_prefix o session w ++ t ++ [sleep_call 2000],
         sleep w' 2000)
    | (r, t, w') => (r, session_prefix o session w ++ t, w')
    end.
Proof.
  intros Hok.
  destruct (session_run_returns o w) as (b & Hrun).
  rewrite Hrun in Hok. simpl in Hok. injection Hok as ->.
  unfold session_body, session_prefix.
  unfold bind at 1. unfold log at 1. unfold emit at 1.
  unfold bind at 1. rewrite determinePhase_resolved.
  unfold bind at 1. unfold log at 1. unfold emit at 1.
  unfold bind at 1. fold (session_run o w). rewrite Hrun.
  cbn -[session_run check_progress].
  unfold bind at 1.
  destruct (check_progress o (snd (session_run o w)))
    as [[[[|]|e|code] t] w']; cbn -[session_run];
    rewrite <- ?app_assoc; cbn -[session_run];
    rewrite <- ?app_assoc, ?app_nil_r; reflexivity.
Qed.

(** The progress check, case by case. *)
Lemma check_progress_runs (o : Options) (w : world) :
  check_progress o w
  = let t := snd (fst (readFeatureList (dir o) w)) in
    match feature_list_on_disk w (dir o) with
    | None => (Returns next, t, w)
    | Some list =>
        match getProgress list with
        | Throw e => (Throws e, t, w)
        | Ok p =>
            if (passing p =? total p)%nat then
              (match fst (spawn w ["osascript"; "-e";
                                   ("display notification "
                                    ++ quoted "Agent loop complete"
                                    ++ " with title "
                                    ++ quoted "All features passing"
                                    ++ " sound name " ++ quoted "Glass")%string])
               with
               | None => Returns stop
               | Some e => Throws e
               end,
               t ++ progress_line p :: completion,
               snd (spawn w ["osascript"; "-e";
                             ("display notification "
                              ++ quoted "Agent loop complete"
                              ++ " with title "
                              ++ quoted "All features passing"
                              ++ " sound name " ++ quoted "Glass")%string]))
            else (Returns next, t ++ [progress_line p], w)
        end
    end.
Proof.
  cbv zeta. unfold check_progress. unfold bind at 1.
  destruct (readFeatureList_returns (dir o) w) as (t & Hrun & _).
  rewrite Hrun. simpl snd.
  pose proof (read_result_null w (dir o)) as Hnull.
  unfold read_result in *.
  destruct (feature_list_on_disk w (dir o)) as [list|].
  - destruct (is_null list); [discriminate (proj1 Hnull eq_refl)|].
    cbn [negb]. unfold bind at 1. unfold lift.
    destruct (getProgress list) as [p|e]; [|now rewrite app_nil_r].
    unfold bind at 1. unfold log at 1. unfold emit at 1.
    destruct (passing p =? total p)%nat.
    + unfold bind, log, emit, notify, ret.
      destruct (spawn w _) as [[e|] w']; cbn; reflexivity.
    + cbn. reflexivity.
  - simpl. now rewrite app_nil_r.
Qed.

(** [readFeatureList] only probes and reads the file, and logs its
    diagnostic. *)
Lemma readFeatureList_trace (dir : string) (w : world) :
  Forall (fun e => match e with
                   | existsSync_call _ | readFileSync_call _
                   | console_error _ => True
                   | _ => False
                   end) (snd (fst (readFeatureList dir w))).
Proof.
  unfold readFeatureList, bind, fs_exists.
  destruct (existsSync w _); simpl; [|repeat constructor].
  unfold try_catch, bind, fs_read, lift, parse.
  destruct (readFileSync w _) as [content|]; simpl; [|repeat constructor].
  destruct (JSON_parse content) as [v|]; simpl; repeat constructor.
Qed.

Lemma sessions_step (fuel : nat) (o : Options) (session : Z) (w : world) :
  le session (maxSessions o) = true ->
  sessions (S fuel) o session w
  = match session_body o session w with
    | (Returns next, t, w') =>
        let '(r, t', w'') := sessions fuel o (session + 1) w' in
        (r, t ++ t', w'')
    | (Returns stop, t, w') => (Returns tt, t, w')
    | (Throws e, t, w') => (Throws e, t, w')
    | (Exits code, t, w') => (Exits code, t, w')
    end.
Proof.
  intros Hle. cbn [sessions]. rewrite Hle. unfold bind at 1.
  destruct (session_body o session w) as [[[[|]|e|code] t] w'];
    try reflexivity.
  cbn. now rewrite app_nil_r.
Qed.

Lemma sessions_done (fuel : nat) (o : Options) (session : Z) (w : world) :
  le session (maxSessions o) = false ->
  sessions fuel o session w = (Returns tt, [], w).
Proof.
  intros Hle. destruct fuel; cbn [sessions]; now rewrite Hle.
Qed.

(** C5.  A session whose agent session failed prints the retry notice,
    pauses 5000 ms and goes on with the next session: after the agent
    session nothing is probed or read, so there is no completion check,
    and the loop continues at [session + 1], one slot of the budget
    spent.  A session that succeeded and has to go on pauses 2000 ms,
    which is less. *)
Theorem failed_session_backs_off
  (o : Options) (session : Z) (fuel : nat) (w : world) :
  le session (maxSessions o) = true ->
  fst (fst (session_run o w)) = Returns false ->
  session_body o session w
  = (Returns next,
     session_prefix o session w
     ++ [console_log [pc yellow (str "Session failed, retrying after delay...")];
         sleep_call 5000],
     sleep (snd (session_run o w)) 5000)
  /\ probes [console_log [pc yellow (str "Session failed, retrying after delay...")];
             sleep_call 5000] = []
  /\ sessions (S fuel) o session w
     = (let '(r, t, w') :=
          sessions fuel o (session + 1) (sleep (snd (session_run o w)) 5000) in
        (r,
         (session_prefix o session w
          ++ [console_log [pc yellow (str "Session failed, retrying after delay...")];
              sleep_call 5000]) ++ t,
         w'))
  /\ (forall o' session' w' t w'',
        fst (fst (session_run o' w')) = Returns true ->
        check_progress o' (snd (session_run o' w')) = (Returns next, t, w'') ->
        session_body o' session' w'
        = (Returns next,
           session_prefix o' session' w' ++ t ++ [sleep_call 2000],
           sleep w'' 2000))
  /\ (2000 < 5000)%Z.
Proof.
  intros Hle Hfail.
  pose proof (session_body_failed o session w Hfail) as Hbody.
  split; [exact Hbody|]. split; [reflexivity|]. split; [|split].
  - rewrite (sessions_step fuel o session w Hle), Hbody. reflexivity.
  - intros o' session' w' t w'' Hok Hcheck.
    rewrite (session_body_succeeded o' session' w' Hok), Hcheck.
    reflexivity.
  - lia.
Qed.

(** C1, as the code has it.  After a successful agent session the loop
    announces completion, fires the notification and ends exactly when
    the directory holds a feature list whose counts [passing] and [total]
    are equal; the counts may both be zero.  Otherwise nothing is
    announced or notified and the session goes on, or throws what
    [getProgress] threw. *)
Theorem completion_iff_all_passing
  (o : Options) (session : Z) (fuel : nat) (w : world) :
  le session (maxSessions o) = true ->
  fst (fst (session_run o w)) = Returns true ->
  (all_passing (snd (session_run o w)) (dir o) = true ->
   exists t r w',
     sessions (S fuel) o session w
     = (r, session_prefix o session w ++ t ++ completion, w')
     /\ (r = Returns tt \/ exists e, r = Throws e))
  /\ (all_passing (snd (session_run o w)) (dir o) = false ->
      exists t r w',
        session_body o session w = (r, session_prefix o session w ++ t, w')
        /\ (r = Returns next \/ exists e, r = Throws e)
        /\ ~ In (console_log [pc green (str "All features complete!")]) t
        /\ (forall argv, ~ In (spawn_call argv) t)).
Proof.
  intros Hle Hok.
  pose proof (session_body_succeeded o session w Hok) as Hbody.
  pose proof (check_progress_runs o (snd (session_run o w))) as Hcheck.
  cbv zeta in Hcheck.
  pose proof (readFeatureList_trace (dir o) (snd (session_run o w))) as Hread.
  set (w2 := snd (session_run o w)) in *.
  set (tr := snd (fst (readFeatureList (dir o) w2))) in *.
  assert (Hquiet : ~ In (console_log [pc green (str "All features complete!")]) tr
                   /\ forall argv, ~ In (spawn_call argv) tr).
  { rewrite Forall_forall in Hread. split.
    - intros Hin. exact (Hread _ Hin).
    - intros argv Hin. exact (Hread _ Hin). }
  destruct Hquiet as [Hq1 Hq2].
  unfold all_passing.
  destruct (feature_list_on_disk w2 (dir o)) as [list|].
  - destruct (getProgress list) as [p|e].
    + destruct (passing p =? total p)%nat; split; try discriminate; intros _.
      * rewrite (sessions_step fuel o session w Hle), Hbody, Hcheck.
        destruct (spawn w2 _) as [[e|] w3]; cbn [fst snd].
        -- exists (tr ++ [progress_line p]), (Throws e), w3.
           rewrite <- !app_assoc. split; [reflexivity|right; now exists e].
        -- exists (tr ++ [progress_line p]), (Returns tt), w3.
           rewrite <- !app_assoc. split; [reflexivity|now left].
      * rewrite Hbody, Hcheck.
        exists ((tr ++ [progress_line p]) ++ [sleep_call 2000]),
          (Returns next), (sleep w2 2000).
        split; [now rewrite <- !app_assoc|]. split; [now left|].
        split.
        -- intros Hin. apply in_app_or in Hin as [Hin|[Hin|[]]];
             [|discriminate].
           apply in_app_or in Hin as [Hin|[Hin|[]]];
             [now apply Hq1|discriminate].
        -- intros argv Hin. apply in_app_or in Hin as [Hin|[Hin|[]]];
             [|discriminate].
           apply in_app_or in Hin as [Hin|[Hin|[]]];
             [now apply (Hq2 argv)|discriminate].
    + split; [discriminate|intros _].
      rewrite Hbody, Hcheck.
      exists tr, (Throws e), w2.
      split; [reflexivity|]. split; [right; now exists e|]. now split.
  - split; [discriminate|intros _].
    rewrite Hbody, Hcheck.
    exists (tr ++ [sleep_call 2000]), (Returns next), (sleep w2 2000).
    split; [reflexivity|]. split; [now left|].
    split.
    + intros Hin. apply in_app_or in Hin as [Hin|[Hin|[]]];
        [now apply Hq1|discriminate].
    + intros argv Hin. apply in_app_or in Hin as [Hin|[Hin|[]]];
        [now apply (Hq2 argv)|discriminate].
Qed.

(** The fuel [main] gives the loop is enough: more fuel changes
    nothing, so the loop never stops for lack of it. *)
Lemma sessions_fuel (o : Options) (fuel fuel' : nat) (session : Z)
  (w : world) :
  (forall z, maxSessions o = Int z ->
             Z.to_nat (z + 1 - session) <= fuel
             /\ Z.to_nat (z + 1 - session) <= fuel') ->
  sessions fuel o session w = sessions fuel' o session w.
Proof.
  revert fuel' session w.
  induction fuel as [|fuel IH]; intros fuel' session w Hfuel.
  - destruct (le session (maxSessions o)) eqn:Hle.
    + destruct (maxSessions o) as [|z]; [discriminate|].
      simpl in Hle. apply Z.leb_le in Hle.
      destruct (Hfuel z eq_refl) as [H0 _]. lia.
    + now rewrite !sessions_done.
  - destruct (le session (maxSessions o)) eqn:Hle.
    + destruct fuel' as [|fuel'].
      * destruct (maxSessions o) as [|z]; [discriminate|].
        simpl in Hle. apply Z.leb_le in Hle.
        destruct (Hfuel z eq_refl) as [_ H0]. lia.
      * rewrite !sessions_step by exact Hle.
        destruct (session_body o session w) as [[[[|]|e|code] t] w'];
          try reflexivity.
        rewrite (IH fuel' (session + 1)%Z w'); [reflexivity|].
        intros z Hz. destruct (Hfuel z Hz). split; lia.
    + now rewrite !sessions_done.
Qed.

Lemma budget_is_enough (o : Options) (fuel : nat) (w : world) :
  budget (maxSessions o) <= fuel ->
  sessions (budget (maxSessions o)) o 1 w = sessions fuel o 1 w.
Proof.
  intros Hfuel. apply sessions_fuel.
  intros z Hz. rewrite Hz in *. simpl in *.
  replace (z + 1 - 1)%Z with z by lia. split; [lia|exact Hfuel].
Qed.

(** C10.  When [--max-sessions] parses to [NaN] or to an integer below
    1, the loop body never runs: the test [session <= maxSessions] fails
    at the first session and at every later one, so the loop returns at
    once with nothing done, in every world and however many turns it is
    given.  [main] therefore checks the directory, prints its start
    banner and its finish banner, starts no agent session, pauses
    nowhere, leaves the world as it was and returns. *)
Theorem no_budget_no_session
  (w : world) (values : Values) (positionals : list string) :
  parseArgs w = inr (values, positionals) ->
  values_help values = false ->
  positionals <> [] ->
  existsSync w (resolve [values_dir values]) = true ->
  (parseInt (values_max_sessions values) = NaN
   \/ exists z, parseInt (values_max_sessions values) = Int z /\ (z < 1)%Z) ->
  (forall (fuel : nat) (o : Options) (session : Z) (w' : world),
      maxSessions o = parseInt (values_max_sessions values) ->
      (1 <= session)%Z ->
      le session (maxSessions o) = false
      /\ sessions fuel o session w' = (Returns tt, [], w'))
  /\ main w
  = (Returns tt,
     [existsSync_call (resolve [values_dir values]);
      console_log [pc cyan (str "=== Agent Loop Starting ===")];
      console_log [str "Directory: " +++ str (resolve [values_dir values])];
      console_log [str "Model: " +++ str (values_model values)];
      console_log [str "Max sessions: "
                   +++ int (parseInt (values_max_sessions values))]]
     ++ (if values_verbose values
         then [console_log [str "Verbose mode: enabled"]] else [])
     ++ [console_log [pc cyan (str "=== Agent loop finished ===")]],
     w)
  /\ program w = main w
  /\ agent_prompts (snd (fst (main w))) = []
  /\ pauses (snd (fst (main w))) = []
  /\ probes (snd (fst (main w))) = [resolve [values_dir values]].
Proof.
  intros Hargs Hhelp Hpos Hdir Hmax.
  assert (Hloop : forall (fuel : nat) (o : Options) (session : Z) (w' : world),
             maxSessions o = parseInt (values_max_sessions values) ->
             (1 <= session)%Z ->
             le session (maxSessions o) = false
             /\ sessions fuel o session w' = (Returns tt, [], w')).
  { intros fuel o session w' Ho Hsession.
    assert (Htest : le session (maxSessions o) = false).
    { rewrite Ho.
      destruct Hmax as [->|(z & -> & Hz)]; simpl; [reflexivity|].
      apply Z.leb_gt. lia. }
    split; [exact Htest|]. now apply sessions_done. }
  assert (Hle : forall fuel o,
             maxSessions o = parseInt (values_max_sessions values) ->
             sessions fuel o 1 w = (Returns tt, [], w)).
  { intros fuel o Ho. apply Hloop; [exact Ho|lia]. }
  assert (Hmain : main w
                  = (Returns tt,
                     [existsSync_call (resolve [values_dir values]);
                      console_log [pc cyan (str "=== Agent Loop Starting ===")];
                      console_log [str "Directory: "
                                   +++ str (resolve [values_dir values])];
                      console_log [str "Model: " +++ str (values_model values)];
                      console_log [str "Max sessions: "
                                   +++ int (parseInt (values_max_sessions values))]]
                     ++ (if values_verbose values
                         then [console_log [str "Verbose mode: enabled"]]
                         else [])
                     ++ [console_log [pc cyan (str "=== Agent loop finished ===")]],
                     w)).
  { unfold main, parseCliArgs. unfold bind at 1. unfold bind at 1.
    rewrite Hargs, Hhelp.
    destruct positionals as [|p ps]; [now destruct Hpos|].
    cbn [List.length Nat.eqb orb ret app].
    unfold bind at 1. unfold fs_exists at 1. cbn [dir]. rewrite Hdir.
    cbn [negb].
    unfold bind, log, emit, ret. cbn [verbose maxSessions dir options_model].
    destruct (values_verbose values); cbv beta iota;
      rewrite Hle by reflexivity; reflexivity. }
  split; [exact Hloop|].
  split; [exact Hmain|]. split; [|split; [|split]].
  - unfold program, try_catch. now rewrite Hmain.
  - rewrite Hmain. now destruct (values_verbose values).
  - rewrite Hmain. now destruct (values_verbose values).
  - rewrite Hmain. now destruct (values_verbose values).
Qed.

End OrchestratorFacts.

(** ** Runs in the simulated world *)

Section Simulation.
#[local] Existing Instance Sim.numbers.
#[local] Existing Instance Sim.engine.
#[local] Existing Instance Sim.environment.

(** The simulated parser reads what the simulated printer writes, on the
    sample texts. *)
Example parse_two_text_items :
  JSON_parse Sim.two_text_items
  = Some (VArr [VObj [("type", VStr "text");
                      ("text", VStr ("{" ++ quoted "output" ++ ":"
                                     ++ quoted "hi" ++ "}")%string)];
                VObj [("type", VStr "text");
                      ("text", VStr "output: none")]]).
Proof. reflexivity. Qed.

Example parseInt_examples :
  parseInt "50" = Int 50 /\ parseInt "  -12abc" = Int (-12)
  /\ parseInt "abc" = NaN /\ parseInt "" = NaN /\ parseInt "0" = Int 0.
Proof. repeat split; reflexivity. Qed.

(** Witness of C9: two features, one passing, in either order. *)
Lemma getProgress_is_a_fold_witness :
  Permutation [Sim.feature true; Sim.feature false]
    [Sim.feature false; Sim.feature true]
  /\ getProgress
       (FeatureList_value
          {| features := [Sim.feature true; Sim.feature false] |})
     = Ok {| passing := 1; total := 2 |}
  /\ getProgress
       (FeatureList_value
          {| features := [Sim.feature false; Sim.feature true] |})
     = getProgress
         (FeatureList_value
            {| features := [Sim.feature true; Sim.feature false] |}).
Proof.
  assert (Hperm : Permutation [Sim.feature true; Sim.feature false]
                    [Sim.feature false; Sim.feature true])
    by apply perm_swap.
  split; [exact Hperm|].
  destruct (@getProgress_is_a_fold Sim.numbers
              {| features := [Sim.feature true; Sim.feature false] |}
              {| features := [Sim.feature false; Sim.feature true] |} Hperm)
    as (Hfold & _ & Hinv).
  split; [exact Hfold|exact Hinv].
Defined.

(** Witness of C4: a feature list file that holds [{oops]. *)
Lemma malformed_feature_list_is_absent_witness :
  readFeatureList "/project"
    (Sim.project [("/project/feature_list.json", "{oops")] [] "3")
  = (Returns VNull,
     [existsSync_call "/project/feature_list.json";
      readFileSync_call "/project/feature_list.json";
      console_error [str "Failed to parse feature_list.json"]],
     Sim.project [("/project/feature_list.json", "{oops")] [] "3").
Proof.
  apply (@malformed_feature_list_is_absent Sim.numbers Sim.engine
           Sim.environment "/project"
           (Sim.project [("/project/feature_list.json", "{oops")] [] "3")
           "{oops"); reflexivity.
Defined.

(** Witness of C5: the stream of the first session throws. *)
Lemma failed_session_backs_off_witness :
  pauses
    (snd (fst (session_body (Sim.options "3") 1
                 (Sim.project [] [(Sim.broken, [])] "3"))))
  = [5000%Z].
Proof.
  rewrite (proj1 (@failed_session_backs_off Sim.numbers Sim.engine
                    Sim.environment (Sim.options "3") 1 2
                    (Sim.project [] [(Sim.broken, [])] "3")
                    eq_refl eq_refl)).
  reflexivity.
Defined.

(** Witness of C1: after the session both features pass. *)
Lemma completion_iff_all_passing_witness :
  exists t r w',
    sessions 3 (Sim.options "3") 1
      (Sim.project (Sim.feature_list [Sim.feature true; Sim.feature false])
         [(Sim.uneventful,
           Sim.feature_list [Sim.feature true; Sim.feature true])] "3")
    = (r,
       session_prefix (Sim.options "3") 1
         (Sim.project (Sim.feature_list [Sim.feature true; Sim.feature false])
            [(Sim.uneventful,
              Sim.feature_list [Sim.feature true; Sim.feature true])] "3")
       ++ t ++ completion, w')
    /\ (r = Returns tt \/ exists e, r = Throws e).
Proof.
  apply (proj1 (@completion_iff_all_passing Sim.numbers Sim.engine
                  Sim.environment (Sim.options "3") 1 2
                  (Sim.project
                     (Sim.feature_list [Sim.feature true; Sim.feature false])
                     [(Sim.uneventful,
                       Sim.feature_list [Sim.feature true; Sim.feature true])]
                     "3")
                  eq_refl eq_refl)).
  reflexivity.
Defined.

(** Witness of C10: [--max-sessions abc]; the loop is also run with
    five turns in a project whose next session is ready. *)
Lemma no_budget_no_session_witness :
  sessions 5 (Sim.options "abc") 1
    (Sim.project [] [(Sim.uneventful, [])] "abc")
  = (Returns tt, [], Sim.project [] [(Sim.uneventful, [])] "abc")
  /\ agent_prompts (snd (fst (main (Sim.project [] [] "abc")))) = []
  /\ pauses (snd (fst (main (Sim.project [] [] "abc")))) = []
  /\ fst (fst (main (Sim.project [] [] "abc"))) = Returns tt.
Proof.
  destruct (@no_budget_no_session Sim.numbers Sim.engine Sim.environment
              (Sim.project [] [] "abc")
              {| values_dir := "/project";
                 values_max_sessions := "abc";
                 values_model := "claude-opus-4-5-20251101";
                 values_verbose := false;
                 values_help := false |}
              ["todo"; "app"])
    as (Hloop & Hmain & _ & Hasks & Hpauses & _).
  - reflexivity.
  - reflexivity.
  - discriminate.
  - reflexivity.
  - left. reflexivity.
  - split;
      [exact (proj2 (Hloop 5 (Sim.options "abc") 1%Z
                       (Sim.project [] [(Sim.uneventful, [])] "abc")
                       eq_refl (Z.le_refl 1)))|].
    split; [exact Hasks|]. split; [exact Hpauses|].
    rewrite Hmain. reflexivity.
Defined.

(** A run of three sessions: the stream of the first throws, the second
    writes a list with nothing passing, the third makes it pass. *)
Example main_three_sessions :
  let w :=
    Sim.project []
      [(Sim.broken, []);
       (Sim.uneventful, Sim.feature_list [Sim.feature false]);
       (Sim.uneventful, Sim.feature_list [Sim.feature true])] "5" in
  fst (fst (main w)) = Returns tt
  /\ agent_prompts (snd (fst (main w)))
     = [getInitializerPrompt "todo app"; getInitializerPrompt "todo app";
        getPlannerPrompt]
  /\ pauses (snd (fst (main w))) = [5000%Z; 2000%Z]
  /\ last_effects 3 (snd (fst (main w)))
     = completion
       ++ [console_log [pc cyan (str "=== Agent loop finished ===")]].
Proof. cbv zeta. repeat split; reflexivity. Qed.

(** C1, counterexample.  The directory holds a feature list with no
    feature; the budget is three sessions.  After the first session, which
    succeeds, [getProgress] gives 0 of 0, and the harness announces
    completion, fires the notification and leaves the loop: one session
    has run. *)
Lemma empty_feature_list_is_complete :
  let w :=
    Sim.project (Sim.feature_list [])
      [(Sim.uneventful, Sim.feature_list [])] "3" in
  feature_list_on_disk w "/project" = Some (VObj [("features", VArr [])])
  /\ getProgress (VObj [("features", VArr [])])
     = Ok {| passing := 0; total := 0 |}
  /\ fst (fst (main w)) = Returns tt
  /\ agent_prompts (snd (fst (main w))) = [getPlannerPrompt]
  /\ last_effects 4 (snd (fst (main w)))
     = progress_line {| passing := 0; total := 0 |}
       :: completion
       ++ [console_log [pc cyan (str "=== Agent loop finished ===")]].
Proof. cbv zeta. repeat split; reflexivity. Qed.

(** C6, counterexample.  A tool result that parses to an array of two
    items is unwrapped to the [output] of the first; and a tool result
    whose [output] is an object with a [length] of 1000 is unwrapped to
    that object, the truncation that follows throws, and [runAgent]
    returns [false] for a stream that ended normally. *)
Lemma unwrap_changes_session_outcome :
  (exists item1 item2,
     JSON_parse Sim.two_text_items = Some (VArr [item1; item2]))
  /\ unwrap (Some Sim.two_text_items) = VStr "hi"
  /\ unwrap (Some Sim.output_with_length)
     = VObj [("length", VNum 1000%Z)]
  /\ ending (Sim.one_tool_result Sim.output_with_length) = None
  /\ fst (fst (runAgent getCoderPrompt "/project" "claude-opus-4-5-20251101"
                 false
                 (Sim.project []
                    [(Sim.one_tool_result Sim.output_with_length, [])] "3")))
     = Returns false
  /\ pauses
       (snd (fst (main
                    (Sim.project []
                       [(Sim.one_tool_result Sim.output_with_length, [])]
                       "1"))))
     = [5000%Z].
Proof.
  split; [do 2 eexists; reflexivity|].
  repeat split; reflexivity.
Qed.

(** C7, at the failing input.  A tool result whose [output] is an array
    of one string of 600 characters is unwrapped to that array; its
    [length] is 1, so nothing is cut, and the 600 characters are shown,
    more than the cap of 500 and the ellipsis. *)
Theorem tool_result_display_exceeds_cap :
  unwrap (Some Sim.output_in_array) = VArr [VStr (replicate 600 "a"%char)]
  /\ tool_result_display false (VStr Sim.output_in_array)
     = Ok (replicate 600 "a"%char)
  /\ 500 + 3 < String.length (replicate 600 "a"%char).
Proof.
  split; [reflexivity|]. split; [reflexivity|].
  apply Nat.ltb_lt. vm_compute. reflexivity.
Qed.

End Simulation.

(** * Further properties *)

(** ** More on the progress tracker *)

Section MoreProgressFacts.
Context {N : Numbers}.

Lemma filter_passes_inv (items kept : list value) :
  filter_passes items = Ok kept ->
  Forall readable items /\ kept = filter flag items.
Proof.
  revert kept. induction items as [|f items IH]; simpl; intros kept Hk.
  - injection Hk as <-. split; [constructor|reflexivity].
  - destruct (get f "passes") as [ps|] eqn:Hget; simpl in Hk; [|discriminate].
    destruct (filter_passes items) as [k|]; simpl in Hk; [|discriminate].
    destruct (IH k eq_refl) as [Hall ->].
    injection Hk as <-.
    assert (Hf : readable f) by (split; intros ->; discriminate).
    split; [now constructor|].
    destruct f; simpl in Hget; try discriminate; injection Hget as <-;
      reflexivity.
Qed.

(** X1.  [getProgress] returns exactly on a value whose [features]
    property is an array without [null] items, with the number of items
    and the number of truthy [passes] flags; on any other value it
    throws. *)
Theorem getProgress_returns_iff (v : value) (p : Progress) :
  getProgress v = Ok p
  <-> exists items,
        get v "features" = Ok (VArr items)
        /\ Forall readable items
        /\ p = {| passing := List.length (filter flag items);
                  total := List.length items |}.
Proof.
  split.
  - unfold getProgress.
    destruct (get v "features") as [list|]; simpl; [|discriminate].
    destruct list as [| | | | |items|]; try discriminate.
    destruct (filter_passes items) as [kept|] eqn:Hk; simpl; [|discriminate].
    intros [= <-]. destruct (filter_passes_inv _ Hk) as [Hall ->].
    exists items. now repeat split.
  - intros (items & Hget & Hall & ->). now apply getProgress_array.
Qed.

Lemma passing_count_app (a b : list Feature) :
  List.length (filter passes (a ++ b))
  = List.length (filter passes a) + List.length (filter passes b).
Proof. now rewrite filter_app, length_app. Qed.

Lemma getProgress_FeatureList (l : FeatureList) :
  getProgress (FeatureList_value l)
  = Ok {| passing := List.length (filter passes (features l));
          total := List.length (features l) |}.
Proof.
  rewrite (@getProgress_array _ _ (map Feature_value (features l))).
  - now rewrite flag_Feature_value, length_map.
  - reflexivity.
  - apply Feature_values_readable.
Qed.

(** X2.  Replacing one feature that does not pass by one that passes
    raises [passing] by one and leaves [total] as it was. *)
Theorem getProgress_counts_a_new_pass (a b : list Feature) (f f' : Feature) :
  passes f = false ->
  passes f' = true ->
  exists p,
    getProgress (FeatureList_value {| features := a ++ f :: b |}) = Ok p
    /\ getProgress (FeatureList_value {| features := a ++ f' :: b |})
       = Ok {| passing := S (passing p); total := total p |}.
Proof.
  intros Hf Hf'. eexists. split; [apply getProgress_FeatureList|].
  rewrite getProgress_FeatureList. cbn [features passing total].
  rewrite !passing_count_app, !length_app. simpl. rewrite Hf, Hf'. simpl.
  f_equal. f_equal. lia.
Qed.

Lemma filter_all (l : list Feature) :
  List.length (filter passes l) = List.length l
  <-> Forall (fun f => passes f = true) l.
Proof.
  induction l as [|f l IH]; simpl.
  - split; [constructor|reflexivity].
  - destruct (passes f) eqn:Hf; simpl.
    + split.
      * intros [= H]. constructor; [exact Hf|now apply IH].
      * intros H. inversion H; subst. f_equal. now apply IH.
    + split.
      * intros H. pose proof (filter_length_le passes l). lia.
      * intros H. inversion H; congruence.
Qed.

(** X3.  On a well-formed feature list the counts of [getProgress] are
    equal exactly when every feature passes; in particular they are equal
    on the empty list. *)
Theorem getProgress_equal_counts_iff (l : FeatureList) (p : Progress) :
  getProgress (FeatureList_value l) = Ok p ->
  (passing p = total p <-> Forall (fun f => passes f = true) (features l)).
Proof.
  rewrite getProgress_FeatureList. intros [= <-]. simpl. apply filter_all.
Qed.

End MoreProgressFacts.

(** ** More on the event stream classifier *)

Section MoreClassifierFacts.
Context {N : Numbers} {E : Engine} {W : Environment}.

Lemma unwrap_plain (s : string) :
  includes s (quoted "output") || includes s "output:" = false
  \/ JSON_parse s = None ->
  unwrap (Some s) = VStr s.
Proof.
  intros [Hmark|Hparse]; unfold unwrap, unwrap_try.
  - now rewrite Hmark.
  - unfold parse. rewrite Hparse.
    now destruct (includes s (quoted "output") || includes s "output:").
Qed.

(** X4.  A tool result that is a string without the [output] marker, or
    one that is not JSON, is shown as it is, cut at the cap of the
    verbosity: at most 500 characters, or 2000 when verbose, and the
    ellipsis. *)
Theorem plain_tool_result_is_shown_cut (verbose : bool) (s : string) :
  includes s (quoted "output") || includes s "output:" = false
  \/ JSON_parse s = None ->
  tool_result_display verbose (VStr s)
  = Ok (truncate (if verbose then 2000 else 500) s)
  /\ (String.length s <= (if verbose then 2000 else 500) ->
      tool_result_display verbose (VStr s) = Ok s)
  /\ String.length (truncate (if verbose then 2000 else 500) s)
     <= (if verbose then 2000 else 500) + 3.
Proof.
  intros Hplain.
  destruct (@tool_result_display_bound _ _ verbose (VStr s) s) as [Hshow Hcap].
  { simpl. now apply unwrap_plain. }
  split; [exact Hshow|]. split; [|exact Hcap].
  intros Hshort. rewrite Hshow. now rewrite truncate_short.
Qed.

(** X5.  A tool result that carries the marker and parses to an object
    whose [output] is a string is shown as that string, or as [(empty)]
    when the string is empty, cut at the cap of the verbosity. *)
Theorem object_output_is_shown (verbose : bool) (s o : string)
  (fields : list (string * value)) :
  includes s (quoted "output") || includes s "output:" = true ->
  JSON_parse s = Some (VObj fields) ->
  lookup "output" fields = VStr o ->
  tool_result_display verbose (VStr s)
  = Ok (truncate (if verbose then 2000 else 500)
          (if (o =? "")%string then "(empty)" else o)).
Proof.
  intros Hmark Hparse Hout.
  apply (@tool_result_display_bound _ _ verbose (VStr s)).
  simpl. unfold unwrap, unwrap_try, parse. rewrite Hmark, Hparse. simpl.
  rewrite Hout. simpl. unfold or_empty. simpl.
  now destruct (o =? "")%string.
Qed.

(** X6.  The input of a tool invocation is shown as its JSON text when
    that has at most 200 characters, and as its first 200 characters and
    the ellipsis otherwise; when the input has no JSON text the display
    throws. *)
Theorem tool_input_is_shown_cut (input : value) :
  match JSON_stringify input with
  | Some inputStr =>
      tool_input_display input = Ok (truncate 200 inputStr)
      /\ (String.length inputStr <= 200 -> truncate 200 inputStr = inputStr)
      /\ (200 < String.length inputStr ->
          truncate 200 inputStr = (slice0 200 inputStr ++ "...")%string
          /\ String.length (truncate 200 inputStr) = 203)
  | None => exists e, tool_input_display input = Throw e
  end.
Proof.
  unfold tool_input_display.
  destruct (JSON_stringify input) as [inputStr|]; [|eauto].
  split; [reflexivity|]. split; [apply truncate_short|].
  intros Hlong. rewrite (truncate_long _ Hlong). split; [reflexivity|].
  rewrite length_append, length_slice0.
  rewrite Nat.min_l by lia. reflexivity.
Qed.

End MoreClassifierFacts.

(** ** Command line *)

Lemma digit_is_no_space_or_sign (c : ascii) (d : Z) :
  digit_of c = Some d ->
  is_space c = false /\ c <> "-"%char /\ c <> "+"%char /\ (0 <= d)%Z.
Proof.
  destruct c as [[] [] [] [] [] [] [] []]; cbv; intros H;
    try discriminate H; injection H as <-;
    repeat split; discriminate.
Qed.

(** The value of a decimal numeral, digit by digit. *)
Lemma of_uint_acc_value (d : Decimal.uint) (acc : positive) :
  Z.pos (Pos.of_uint_acc d acc)
  = (Z.pos acc * 10 ^ Z.of_nat (Decimal.nb_digits d) + Z.of_uint d)%Z.
Proof.
  revert acc. unfold Z.of_uint.
  induction d as [|d IH|d IH|d IH|d IH|d IH|d IH|d IH|d IH|d IH|d IH];
    intros acc;
    cbn [Pos.of_uint_acc Pos.of_uint Decimal.nb_digits Z.of_N];
    [cbn; lia|..];
    rewrite Nat2Z.inj_succ, Z.pow_succ_r by lia;
    rewrite !IH;
    rewrite ?Pos2Z.inj_add, ?Pos2Z.inj_mul; ring.
Qed.

(** The digit loop of [parseInt] on the text of a numeral, followed by
    something the loop stops at: the accumulator is shifted by the
    digits read. *)
Lemma digits_numeral (d : Decimal.uint) (tail : string) (a : Z) :
  (forall b, digits tail (Some b) = Some b) ->
  digits (NilEmpty.string_of_uint d ++ tail) (Some a)
  = Some (a * 10 ^ Z.of_nat (Decimal.nb_digits d) + Z.of_uint d)%Z.
Proof.
  intros Htail. revert a.
  induction d as [|d IH|d IH|d IH|d IH|d IH|d IH|d IH|d IH|d IH|d IH];
    intros a;
    cbn [NilEmpty.string_of_uint append Decimal.nb_digits];
    [rewrite Htail; f_equal; cbn; lia|..];
    (etransitivity; [apply IH|]); f_equal;
    rewrite Nat2Z.inj_succ, Z.pow_succ_r by lia;
    unfold Z.of_uint at 2; cbn [Pos.of_uint Z.of_N];
    rewrite ?of_uint_acc_value; unfold Z.of_uint;
    match goal with
    | |- context [Z.of_nat (nat_of_ascii ?c - 48)] =>
        let v := eval vm_compute in (Z.of_nat (nat_of_ascii c - 48)) in
        change (Z.of_nat (nat_of_ascii c - 48)) with v
    end; ring.
Qed.

(** The text of a numeral that is not empty starts with a digit. *)
Lemma numeral_head (d : Decimal.uint) :
  d <> Decimal.Nil ->
  exists (x : ascii) (k : Z) (tail : string),
    NilEmpty.string_of_uint d = String x tail /\ digit_of x = Some k.
Proof.
  destruct d; [intros H; now destruct H|..]; intros _;
    cbn [NilEmpty.string_of_uint]; do 3 eexists; (split; [reflexivity|]);
    reflexivity.
Qed.

(** From a digit on, [parseInt] is the digit loop. *)
Lemma parseInt_digit_head (x : ascii) (k : Z) (tail : string) :
  digit_of x = Some k ->
  parseInt (String x tail)
  = match digits (String x tail) (Some 0%Z) with
    | Some z => Int z
    | None => NaN
    end.
Proof.
  intros Hx.
  destruct (@digit_is_no_space_or_sign x _ Hx) as (Hsp & Hminus & Hplus & _).
  transitivity (match digits (String x tail) None with
                | Some z => Int z
                | None => NaN
                end).
  - unfold parseInt. cbn [skip_spaces]. rewrite Hsp.
    destruct x as [[] [] [] [] [] [] [] []]; try reflexivity;
      solve [now destruct Hminus | now destruct Hplus].
  - cbn [digits]. now rewrite Hx.
Qed.

(** After a minus sign, [parseInt] negates what the digit loop reads. *)
Lemma parseInt_minus (s : string) :
  parseInt (String "-" s)
  = match digits s None with
    | Some z => Int (- z)
    | None => NaN
    end.
Proof.
  unfold parseInt. cbn [skip_spaces].
  replace (is_space "-") with false by reflexivity. reflexivity.
Qed.

Lemma append_empty_r (s : string) : (s ++ EmptyString)%string = s.
Proof. induction s as [|c s IH]; cbn [append]; now rewrite ?IH. Qed.

Lemma parseInt_numeral (d : Decimal.uint) (tail : string) :
  d <> Decimal.Nil ->
  (forall b, digits tail (Some b) = Some b) ->
  parseInt (NilEmpty.string_of_uint d ++ tail) = Int (Z.of_uint d)
  /\ parseInt (String "-" (NilEmpty.string_of_uint d ++ tail))
     = Int (- Z.of_uint d).
Proof.
  intros Hd Htail.
  pose proof (@digits_numeral d tail 0 Htail) as Hvalue.
  rewrite Z.mul_0_l, Z.add_0_l in Hvalue.
  destruct (numeral_head Hd) as (x & k & text & Htext & Hx).
  rewrite Htext in *.
  change (String x text ++ tail)%string
    with (String x (text ++ tail)%string) in *.
  split.
  - now rewrite (@parseInt_digit_head x k (text ++ tail)%string Hx), Hvalue.
  - rewrite parseInt_minus.
    replace (digits (String x (text ++ tail)) None)
      with (digits (String x (text ++ tail)) (Some 0%Z))
      by (cbn [digits]; now rewrite Hx).
    now rewrite Hvalue.
Qed.

(** X8.  [parseInt] reads the leading decimal digits and ignores what
    follows the first character that is not a digit.  For every decimal
    numeral [d] that is not empty and whose value is below 2^53, where a
    JavaScript number holds every integer exactly: the text of [d], alone
    or followed by a character that is no digit and anything after it,
    parses to the value of [d], and to its opposite after a minus
    sign. *)
Theorem parseInt_reads_leading_digits
  (d : Decimal.uint) (c : ascii) (rest : string) :
  d <> Decimal.Nil ->
  digit_of c = None ->
  (Z.of_uint d < 2 ^ 53)%Z ->
  parseInt (NilEmpty.string_of_uint d) = Int (Z.of_uint d)
  /\ parseInt (NilEmpty.string_of_uint d ++ String c rest)
     = Int (Z.of_uint d)
  /\ parseInt (String "-" (NilEmpty.string_of_uint d ++ String c rest))
     = Int (- Z.of_uint d).
Proof.
  intros Hd Hc _.
  assert (Hstop : forall b, digits (String c rest) (Some b) = Some b)
    by (intros b; cbn [digits]; now rewrite Hc).
  destruct (@parseInt_numeral d (String c rest) Hd Hstop) as [Hplain Hminus].
  destruct (@parseInt_numeral d "" Hd (fun b => eq_refl)) as [Halone _].
  rewrite append_empty_r in Halone.
  repeat split; assumption.
Qed.

(** ** What the classifier does besides printing *)

Section PrinterFacts.
Context {N : Numbers} {E : Engine} {W : Environment}.

Lemma prints_only_app (t1 t2 : trace) :
  prints_only t1 -> prints_only t2 -> prints_only (t1 ++ t2).
Proof. intros H1 H2. apply Forall_app. now split. Qed.

Lemma prints_only_quiet (t : trace) :
  prints_only t -> agent_prompts t = [] /\ pauses t = [] /\ probes t = [].
Proof.
  induction 1 as [|e t He _ IH]; [now repeat split|].
  destruct e; simpl in *; try contradiction; exact IH.
Qed.

Lemma printer_ret {A} (a : A) : printer (ret a).
Proof.
  exists (Returns a), []. split; [reflexivity|]. split; [discriminate|].
  constructor.
Qed.

Lemma printer_log (x : text) : printer (log x).
Proof.
  exists (Returns tt), [console_log [x]]. split; [reflexivity|].
  split; [discriminate|]. now repeat constructor.
Qed.

Lemma printer_error (x : text) : printer (error x).
Proof.
  exists (Returns tt), [console_error [x]]. split; [reflexivity|].
  split; [discriminate|]. now repeat constructor.
Qed.

Lemma printer_lift {A} (c : result A) : printer (lift c).
Proof.
  destruct c as [a|e]; eexists; exists [];
    (split; [reflexivity|]); (split; [discriminate|constructor]).
Qed.

Lemma printer_bind {A B} (c : M A) (k : A -> M B) :
  printer c -> (forall a, printer (k a)) -> printer (bind c k).
Proof.
  intros (r & t & Hc & Hr & Ht) Hk. unfold bind.
  destruct r as [a|e|code].
  - destruct (Hk a) as (r' & t' & Hka & Hr' & Ht').
    exists r', (t ++ t'). split; [|split; [exact Hr'|]].
    + intros w. now rewrite Hc, Hka.
    + now apply prints_only_app.
  - exists (Throws e), t. split; [|split; [discriminate|exact Ht]].
    intros w. now rewrite Hc.
  - now destruct (Hr code).
Qed.

Lemma printer_for_of {A} (xs : list A) (f : A -> M unit) :
  (forall x, printer (f x)) -> printer (for_of xs f).
Proof.
  intros Hf. induction xs as [|x xs IH]; simpl.
  - apply printer_ret.
  - apply printer_bind; auto.
Qed.

Lemma printer_on_item (verbose : bool) (i : item) :
  printer (on_item verbose i).
Proof.
  destruct i as [m|data]; simpl.
  - unfold on_message. apply printer_bind.
    { destruct verbose; [apply printer_log|apply printer_ret]. }
    intros _.
    destruct m as [subtype ? ? ?|? [content|]|[content|]
                  |subtype ? ? [errs|]|? ?|?|? ?].
    + destruct (subtype =? "init")%string.
      * apply printer_bind; [apply printer_log|intros _; apply printer_log].
      * destruct verbose; [apply printer_log|apply printer_ret].
    + apply printer_for_of. intros [text|name input|content'|type]; simpl;
        try apply printer_ret.
      * exists (Returns tt), [stdout_write text]. split; [reflexivity|].
        split; [discriminate|]. now repeat constructor.
      * apply printer_bind; [apply printer_lift|intros s; apply printer_log].
    + apply printer_ret.
    + apply printer_for_of. intros [text|name input|content'|type]; simpl;
        try apply printer_ret.
      apply printer_bind; [apply printer_lift|intros s; apply printer_log].
    + apply printer_ret.
    + destruct (subtype =? "success")%string; [apply printer_log|].
      apply printer_bind; [apply printer_error|intros _].
      apply printer_for_of. intros err. apply printer_error.
    + destruct (subtype =? "success")%string; [apply printer_log|].
      apply printer_bind; [apply printer_error|intros _; apply printer_ret].
    + destruct verbose; [apply printer_log|apply printer_ret].
    + destruct verbose; [apply printer_log|apply printer_ret].
    + apply printer_ret.
  - destruct verbose; [apply printer_error|apply printer_ret].
Qed.

Lemma prints_only_shown (verbose : bool) (s : stream) (w : world) :
  prints_only (shown verbose s w).
Proof.
  unfold shown.
  destruct (@printer_for_of _ (items s) (on_item verbose)
              (printer_on_item verbose)) as (r & t & Hrun & _ & Ht).
  now rewrite Hrun.
Qed.

Lemma prints_only_report_trace (verbose : bool) (e : thrown) :
  prints_only (report_trace verbose e).
Proof.
  unfold report_trace.
  destruct (stack_of e) as [stack|]; [destruct verbose|];
    now repeat constructor.
Qed.

(** X7.  Besides printing, an agent session does one thing: it calls the
    SDK's [query] once, right after its starting line, with the prompt,
    the directory and the model it was given, with [Bash] disallowed, the
    nushell MCP server as the only server, permissions bypassed, no
    persisted session and no settings file.  [runAgent] probes and reads
    no file, pauses nowhere and spawns nothing; the world it leaves is the
    one the session left. *)
Theorem runAgent_queries_once_and_prints
  (instructions directory model_name : string) (verbose : bool) (w : world) :
  exists (b : bool) (q : Query) (t : trace),
    runAgent instructions directory model_name verbose w
    = (Returns b,
       console_log [str (nl ++ "--- Agent session starting ---" ++ nl)%string]
         :: query_call q :: t,
       snd (query w q))
    /\ prints_only t
    /\ prompt q = instructions
    /\ cwd q = directory
    /\ model q = Some model_name
    /\ disallowedTools q = ["Bash"]
    /\ mcpServers q = [("nu", ("nu", ["--mcp"]))]
    /\ permissionMode q = "bypassPermissions"
    /\ persistSession q = Some false
    /\ settingSources q = Some []
    /\ stderr q = verbose.
Proof.
  rewrite runAgent_runs. cbv zeta.
  eexists. exists (session_query instructions directory model_name verbose).
  eexists.
  split; [reflexivity|]. split; [|now repeat split].
  apply prints_only_app; [apply prints_only_shown|].
  destruct (raised verbose _ _) as [e|].
  - apply prints_only_report_trace.
  - now repeat constructor.
Qed.

End PrinterFacts.

(** ** More on the session orchestrator *)

Section MoreOrchestratorFacts.
Context {N : Numbers} {E : Engine} {W : Environment}.

Lemma probes_app (t1 t2 : trace) :
  probes (t1 ++ t2) = probes t1 ++ probes t2.
Proof.
  induction t1 as [|e t1 IH]; simpl; [reflexivity|].
  destruct e; simpl; now rewrite IH.
Qed.

Lemma session_run_pauses (o : Options) (w : world) :
  pauses (snd (fst (session_run o w))) = [].
Proof.
  unfold session_run. rewrite runAgent_runs. cbv zeta. cbn [fst snd pauses].
  rewrite pauses_app.
  destruct (prints_only_quiet (prints_only_shown (verbose o)
              (fst (query w (session_query
                               (getPromptForPhase (resolved w (dir o))
                                  (projectSpec o))
                               (dir o) (options_model o) (verbose o))))
              (snd (query w (session_query
                               (getPromptForPhase (resolved w (dir o))
                                  (projectSpec o))
                               (dir o) (options_model o) (verbose o))))))
    as (_ & -> & _).
  destruct (raised _ _ _) as [e|]; [|reflexivity].
  now destruct (prints_only_quiet (prints_only_report_trace (verbose o) e))
    as (_ & -> & _).
Qed.

Lemma session_prefix_pauses (o : Options) (session : Z) (w : world) :
  pauses (session_prefix o session w) = [].
Proof.
  unfold session_prefix. cbn [pauses]. rewrite pauses_app. cbn [pauses].
  rewrite session_run_pauses.
  destruct (determinePhase_returns (dir o) w) as (t & Hrun & _ & Hp).
  rewrite Hrun. cbn [fst snd]. now rewrite Hp.
Qed.

Lemma check_progress_pauses (o : Options) (w : world) :
  pauses (snd (fst (check_progress o w))) = [].
Proof.
  rewrite check_progress_runs. cbv zeta.
  destruct (readFeatureList_returns (dir o) w) as (t & Hrun & _ & Hp).
  rewrite Hrun. cbn [fst snd].
  destruct (feature_list_on_disk w (dir o)) as [list|]; [|exact Hp].
  destruct (getProgress list) as [p|e]; [|exact Hp].
  destruct (passing p =? total p)%nat; cbn [fst snd];
    rewrite pauses_app, Hp; reflexivity.
Qed.

(** A session pauses at most once, for the backoff or for the pacing. *)
Lemma session_body_pauses (o : Options) (session : Z) (w : world) :
  Forall backoff_or_pacing (pauses (snd (fst (session_body o session w))))
  /\ List.length (pauses (snd (fst (session_body o session w)))) <= 1.
Proof.
  destruct (session_run_returns o w) as ([|] & Hrun).
  - rewrite session_body_succeeded by now rewrite Hrun.
    pose proof (check_progress_pauses o (snd (session_run o w))) as Hc.
    destruct (check_progress o (snd (session_run o w)))
      as [[[[|]|e|code] t] w']; cbn [fst snd] in *;
      rewrite ?pauses_app, session_prefix_pauses, Hc; simpl;
      (split; [|lia]);
      first [apply Forall_nil
            |apply Forall_cons; [now right|apply Forall_nil]].
  - rewrite session_body_failed by now rewrite Hrun.
    cbn [fst snd]. rewrite pauses_app, session_prefix_pauses. simpl.
    split; [|lia]. apply Forall_cons; [now left|apply Forall_nil].
Qed.

(** The loop starts at most [fuel] sessions, pauses only for the backoff
    or the pacing, and at most once per session. *)
Lemma sessions_bounds (fuel : nat) (o : Options) (session : Z) (w : world) :
  List.length (agent_prompts (snd (fst (sessions fuel o session w)))) <= fuel
  /\ Forall backoff_or_pacing (pauses (snd (fst (sessions fuel o session w))))
  /\ List.length (pauses (snd (fst (sessions fuel o session w))))
     <= List.length (agent_prompts (snd (fst (sessions fuel o session w)))).
Proof.
  revert session w. induction fuel as [|fuel IH]; intros session w.
  - cbn [sessions]. destruct (le session (maxSessions o)); simpl;
      repeat split; auto.
  - destruct (le session (maxSessions o)) eqn:Hle;
      [|rewrite sessions_done by exact Hle; simpl; repeat split; auto; lia].
    rewrite sessions_step by exact Hle.
    pose proof (session_body_asks o session w) as Hasks.
    destruct (session_body_pauses o session w) as [Hok Hone].
    destruct (session_body o session w) as [[[[|]|e|code] t] w'];
      cbn [fst snd] in *;
      try (rewrite Hasks; simpl; repeat split; auto; lia).
    specialize (IH (session + 1)%Z w').
    destruct (sessions fuel o (session + 1) w') as [[r t'] w''].
    cbn [fst snd] in *. destruct IH as (IH1 & IH2 & IH3).
    rewrite agent_prompts_app, pauses_app, !length_app, Hasks. simpl.
    repeat split; [lia|now apply Forall_app|lia].
Qed.

(** The loop test bounds the sessions: from [session] on, the loop
    starts at most [maxSessions + 1 - session] agent sessions, however
    many turns it is given. *)
Lemma sessions_remaining (fuel : nat) (o : Options) (z session : Z)
  (w : world) :
  maxSessions o = Int z ->
  List.length (agent_prompts (snd (fst (sessions fuel o session w))))
  <= Z.to_nat (z + 1 - session).
Proof.
  intros Hz. revert session w.
  induction fuel as [|fuel IH]; intros session w.
  - cbn [sessions]. destruct (le session (maxSessions o)); simpl; lia.
  - destruct (le session (maxSessions o)) eqn:Hle;
      [|rewrite sessions_done by exact Hle; simpl; lia].
    assert (Hsession : (session <= z)%Z)
      by (rewrite Hz in Hle; simpl in Hle; now apply Z.leb_le).
    rewrite sessions_step by exact Hle.
    pose proof (session_body_asks o session w) as Hasks.
    destruct (session_body o session w) as [[[[|]|e|code] t] w'];
      cbn [fst snd] in *;
      try (rewrite Hasks; simpl; lia).
    specialize (IH (session + 1)%Z w').
    destruct (sessions fuel o (session + 1) w') as [[r t'] w''].
    cbn [fst snd] in *.
    rewrite agent_prompts_app, length_app, Hasks. simpl. lia.
Qed.

(** [main], branch by branch. *)
Lemma main_runs (w : world) :
  main w
  = match parseArgs w with
    | inl e => (Throws e, [], w)
    | inr (values, positionals) =>
        if values_help values || (List.length positionals =? 0)%nat then
          (Exits (if values_help values then 0 else 1)%Z,
           [console_log [str usage]], w)
        else
          let o := {| projectSpec := join " " positionals;
                      dir := resolve [values_dir values];
                      maxSessions := parseInt (values_max_sessions values);
                      verbose := values_verbose values;
                      options_model := values_model values |} in
          if existsSync w (dir o) then
            let '(r, t, w') := sessions (budget (maxSessions o)) o 1 w in
            (match r with
             | Returns _ => Returns tt
             | Throws e => Throws e
             | Exits code => Exits code
             end,
             [existsSync_call (dir o);
              console_log [pc cyan (str "=== Agent Loop Starting ===")];
              console_log [str "Directory: " +++ str (dir o)];
              console_log [str "Model: " +++ str (options_model o)];
              console_log [str "Max sessions: " +++ int (maxSessions o)]]
             ++ (if verbose o
                 then [console_log [str "Verbose mode: enabled"]] else [])
             ++ t
             ++ match r with
                | Returns _ =>
                    [console_log [pc cyan (str "=== Agent loop finished ===")]]
                | _ => []
                end,
             w')
          else
            (Exits 1%Z,
             [existsSync_call (dir o);
              console_error [str "Project directory does not exist: "
                             +++ str (dir o)]],
             w)
    end.
Proof.
  unfold main, parseCliArgs. unfold bind at 1. unfold bind at 1.
  destruct (parseArgs w) as [e|[values positionals]]; [reflexivity|].
  destruct (values_help values || (List.length positionals =? 0)%nat) eqn:Hh.
  - unfold bind, log, emit, process_exit. reflexivity.
  - cbv zeta. cbn [ret app]. unfold bind at 1. unfold fs_exists at 1.
    cbn [dir]. destruct (existsSync w (resolve [values_dir values])).
    + cbn [negb]. unfold bind, log, emit, ret.
      cbn [verbose maxSessions dir options_model].
      destruct (values_verbose values); cbv beta iota;
        destruct (sessions _ _ 1 w) as [[[[]|e|code] t] w'];
        cbn [app]; rewrite ?app_nil_r; reflexivity.
    + cbn [negb]. unfold bind, error, emit, process_exit. reflexivity.
Qed.

(** X9.  With [--help], or without a project specification, [main]
    prints the help text and ends the process, with status 0 for [--help]
    and 1 otherwise; the directory is not probed and no session runs. *)
Theorem help_or_no_spec_exits
  (w : world) (values : Values) (positionals : list string) :
  parseArgs w = inr (values, positionals) ->
  values_help values = true \/ positionals = [] ->
  main w
  = (Exits (if values_help values then 0 else 1)%Z,
     [console_log [str usage]], w)
  /\ program w = main w.
Proof.
  intros Hargs Hhelp.
  assert (Hmain : main w
                  = (Exits (if values_help values then 0 else 1)%Z,
                     [console_log [str usage]], w)).
  { rewrite main_runs, Hargs.
    destruct Hhelp as [->| ->]; [reflexivity|].
    simpl. now rewrite orb_true_r. }
  split; [exact Hmain|].
  unfold program, try_catch. now rewrite Hmain.
Qed.

(** X10.  When the project directory does not exist, [main] reports it
    and ends the process with status 1, before any banner and any
    session. *)
Theorem missing_directory_exits
  (w : world) (values : Values) (positionals : list string) :
  parseArgs w = inr (values, positionals) ->
  values_help values = false ->
  positionals <> [] ->
  existsSync w (resolve [values_dir values]) = false ->
  main w
  = (Exits 1%Z,
     [existsSync_call (resolve [values_dir values]);
      console_error [str "Project directory does not exist: "
                     +++ str (resolve [values_dir values])]],
     w)
  /\ program w = main w.
Proof.
  intros Hargs Hhelp Hpos Hdir.
  assert (Hmain : main w
                  = (Exits 1%Z,
                     [existsSync_call (resolve [values_dir values]);
                      console_error [str "Project directory does not exist: "
                                     +++ str (resolve [values_dir values])]],
                     w)).
  { rewrite main_runs, Hargs, Hhelp.
    destruct positionals as [|p ps]; [now destruct Hpos|].
    cbn [List.length Nat.eqb orb]. cbv zeta. cbn [dir]. now rewrite Hdir. }
  split; [exact Hmain|].
  unfold program, try_catch. now rewrite Hmain.
Qed.

(** X11.  Nothing is thrown out of the program: what [main] throws is
    printed after [Fatal error:] and the process ends with status 1; a
    [main] that returns or ends the process is left as it is. *)
Theorem program_never_throws (w : world) :
  (forall e, fst (fst (program w)) <> Throws e)
  /\ (forall e t w',
        main w = (Throws e, t, w') ->
        program w
        = (Exits 1%Z,
           t ++ [console_error [str "Fatal error:"; error_object e]], w'))
  /\ ((forall e, fst (fst (main w)) <> Throws e) -> program w = main w).
Proof.
  unfold program, try_catch.
  destruct (main w) as [[[[]|e|code] t] w'] eqn:Hmain; cbn;
    (split; [intros e0; discriminate|]); split.
  - intros e t' w'' H. discriminate H.
  - reflexivity.
  - intros e' t' w'' [= <- <- <-]. reflexivity.
  - intros H. now destruct (H e).
  - intros e t' w'' H. discriminate H.
  - reflexivity.
Qed.

(** X12.  The loop never starts more agent sessions than
    [--max-sessions] allows.  For a budget [z] below 2^53, where the
    session counter of the code holds every integer exactly: (1) from any
    session number on, the loop starts at most [z + 1 - session] agent
    sessions, in every world and however many turns it is given, because
    the test [session <= maxSessions] fails after that; (2) the turns
    [main] gives the loop are never what ends it, more turns change
    nothing; (3) so [main] starts at most [z] agent sessions. *)
Theorem main_stays_within_budget
  (w : world) (values : Values) (positionals : list string) (z : Z) :
  parseArgs w = inr (values, positionals) ->
  parseInt (values_max_sessions values) = Int z ->
  (z < 2 ^ 53)%Z ->
  (forall (fuel : nat) (o : Options) (session : Z) (w' : world),
      maxSessions o = Int z ->
      (1 <= session)%Z ->
      List.length (agent_prompts (snd (fst (sessions fuel o session w'))))
      <= Z.to_nat (z + 1 - session))
  /\ (forall (fuel : nat) (o : Options) (w' : world),
        maxSessions o = Int z ->
        Z.to_nat z <= fuel ->
        sessions fuel o 1 w' = sessions (Z.to_nat z) o 1 w')
  /\ List.length (agent_prompts (snd (fst (main w)))) <= Z.to_nat z.
Proof.
  intros Hargs Hmax _. split; [|split].
  - intros fuel o session w' Hz _. now apply sessions_remaining.
  - intros fuel o w' Hz Hfuel.
    pose proof (@budget_is_enough _ _ _ o fuel w') as Henough.
    rewrite Hz in Henough. cbn [budget] in Henough.
    symmetry. now apply Henough.
  - rewrite main_runs, Hargs.
    destruct (values_help values || (List.length positionals =? 0)%nat);
      [simpl; lia|].
    cbv zeta. cbn [dir maxSessions verbose options_model].
    destruct (existsSync w (resolve [values_dir values])); [|simpl; lia].
    match goal with
    | |- context [sessions ?f ?o 1 w] =>
        pose proof (@sessions_remaining f o z 1%Z w) as Hb;
        destruct (sessions f o 1 w) as [[r t] w']
    end.
    cbn [fst snd] in *. cbn [maxSessions] in Hb. specialize (Hb Hmax).
    rewrite !agent_prompts_app.
    destruct (values_verbose values), r; simpl;
      rewrite ?app_nil_r, ?length_app; simpl; lia.
Qed.

(** X13.  Every pause of [main] lasts 5000 ms or 2000 ms, and there is
    at most one pause per agent session. *)
Theorem main_pauses_are_backoff_or_pacing (w : world) :
  Forall backoff_or_pacing (pauses (snd (fst (main w))))
  /\ List.length (pauses (snd (fst (main w))))
     <= List.length (agent_prompts (snd (fst (main w)))).
Proof.
  rewrite main_runs.
  destruct (parseArgs w) as [e|[values positionals]];
    [simpl; split; [constructor|lia]|].
  destruct (values_help values || (List.length positionals =? 0)%nat);
    [simpl; split; [constructor|lia]|].
  cbv zeta. cbn [dir maxSessions verbose options_model].
  destruct (existsSync w (resolve [values_dir values]));
    [|simpl; split; [constructor|lia]].
  match goal with
  | |- context [sessions ?f ?o 1 w] =>
      pose proof (sessions_bounds f o 1 w) as (_ & Hok & Hle);
      destruct (sessions f o 1 w) as [[r t] w']
  end.
  cbn [fst snd] in *.
  rewrite !agent_prompts_app, !pauses_app.
  destruct (values_verbose values), r; simpl;
    rewrite ?app_nil_r, ?length_app; simpl; (split; [exact Hok|lia]).
Qed.

(** X14.  When every feature passes after a successful session and
    [osascript] cannot be spawned, the completion is announced and the
    loop ends by throwing what the spawn threw: the notification is not
    guarded. *)
Theorem failed_notification_is_thrown
  (o : Options) (session : Z) (fuel : nat) (w : world) (e : thrown) :
  le session (maxSessions o) = true ->
  fst (fst (session_run o w)) = Returns true ->
  all_passing (snd (session_run o w)) (dir o) = true ->
  fst (spawn (snd (session_run o w))
         ["osascript"; "-e";
          ("display notification " ++ quoted "Agent loop complete"
           ++ " with title " ++ quoted "All features passing"
           ++ " sound name " ++ quoted "Glass")%string]) = Some e ->
  exists t w',
    sessions (S fuel) o session w
    = (Throws e, session_prefix o session w ++ t ++ completion, w').
Proof.
  intros Hle Hok Hall Hspawn.
  rewrite (sessions_step fuel o session w Hle).
  rewrite (session_body_succeeded o session w Hok).
  rewrite check_progress_runs. cbv zeta.
  unfold all_passing in Hall.
  destruct (feature_list_on_disk _ (dir o)) as [list|]; [|discriminate].
  destruct (getProgress list) as [p|e']; [|discriminate].
  rewrite Hall, Hspawn.
  exists (snd (fst (readFeatureList (dir o) (snd (session_run o w))))
          ++ [progress_line p]).
  eexists. cbn [app]. rewrite <- !app_assoc. reflexivity.
Qed.

(** X15.  When the feature list parses to a value on which [getProgress]
    throws, such as an object without a [features] array, a successful
    session ends the loop with that exception: nothing is announced and
    there is no further session. *)
Theorem malformed_list_ends_the_loop
  (o : Options) (session : Z) (fuel : nat) (w : world) (list : value)
  (e : thrown) :
  le session (maxSessions o) = true ->
  fst (fst (session_run o w)) = Returns true ->
  feature_list_on_disk (snd (session_run o w)) (dir o) = Some list ->
  getProgress list = Throw e ->
  sessions (S fuel) o session w
  = (Throws e,
     session_prefix o session w
     ++ snd (fst (readFeatureList (dir o) (snd (session_run o w)))),
     snd (session_run o w)).
Proof.
  intros Hle Hok Hlist Hthrow.
  rewrite (sessions_step fuel o session w Hle).
  rewrite (session_body_succeeded o session w Hok).
  rewrite check_progress_runs. cbv zeta.
  now rewrite Hlist, Hthrow.
Qed.

End MoreOrchestratorFacts.

(** ** More on the two-phase harness *)

Section MoreTwoPhaseFacts.
Context {N : Numbers} {E : Engine} {W : Environment}.

(** The loop body of the two-phase [runAgent] only prints, and returns. *)
Lemma TwoPhase_on_item_prints (i : item) :
  exists t, (forall w, TwoPhase.on_item i w = (Returns tt, t, w))
            /\ prints_only t.
Proof.
  destruct i as [m|data]; [|exists []; split; [reflexivity|constructor]].
  destruct m as [? ? ? ?|[content|] ?|?|subtype ? ? ?|? ?|?|? ?]; simpl;
    try (exists []; split; [reflexivity|constructor]).
  - eexists. split; [reflexivity|]. now repeat constructor.
  - destruct (subtype =? "error_during_execution")%string.
    + eexists. split; [reflexivity|]. now repeat constructor.
    + exists []. split; [reflexivity|constructor].
Qed.

Lemma TwoPhase_for_of_prints (l : list item) :
  exists t, (forall w, for_of l TwoPhase.on_item w = (Returns tt, t, w))
            /\ prints_only t.
Proof.
  induction l as [|i l (t' & Hl & Ht')].
  - exists []. split; [reflexivity|constructor].
  - destruct (TwoPhase_on_item_prints i) as (t & Hi & Ht).
    exists (t ++ t'). split; [|now apply prints_only_app].
    intros w. cbn [for_of]. unfold bind. now rewrite Hi, Hl.
Qed.

(** The two-phase [runAgent] throws what the stream throws. *)
Lemma TwoPhase_runAgent_runs (instructions directory : string) (w : world) :
  exists t,
    prints_only t
    /\ TwoPhase.runAgent instructions directory w
       = (match ending
                  (fst (query w (TwoPhase.session_query instructions directory)))
          with
          | Some e => Throws e
          | None => Returns tt
          end,
          console_log
            [str (nl ++ "--- Agent session starting ---" ++ nl)%string]
          :: query_call (TwoPhase.session_query instructions directory)
          :: t,
          snd (query w (TwoPhase.session_query instructions directory))).
Proof.
  unfold TwoPhase.runAgent.
  unfold bind at 1. unfold log at 1. unfold emit at 1.
  unfold bind at 1. unfold sdk_query.
  destruct (query w (TwoPhase.session_query instructions directory))
    as [s w1]. cbn [fst snd].
  destruct (TwoPhase_for_of_prints (items s)) as (t & Hl & Ht).
  unfold bind at 1. rewrite Hl.
  destruct (ending s) as [e|].
  - exists t. split; [exact Ht|].
    unfold bind, throw. cbn. now rewrite !app_nil_r.
  - exists (t ++ [console_log
                    [str (nl ++ "--- Agent session ended ---" ++ nl)%string]]).
    split; [apply prints_only_app; [exact Ht|now repeat constructor]|].
    unfold bind, ret, log, emit. cbn. reflexivity.
Qed.

(** X16.  The two-phase harness does not retry: when the stream of a
    session throws, the loop ends by throwing the same, without a pause
    and without a further session. *)
Theorem TwoPhase_stream_error_ends_the_run
  (o : TwoPhase.Options) (session : Z) (fuel : nat) (w : world)
  (e : thrown) :
  le session (TwoPhase.maxSessions o) = true ->
  ending
    (fst (query w
            (TwoPhase.session_query
               match feature_list_on_disk w (TwoPhase.dir o) with
               | None => getInitializerPrompt (TwoPhase.projectSpec o)
               | Some _ => TwoPhase.getCoderPrompt
               end (TwoPhase.dir o)))) = Some e ->
  exists t,
    TwoPhase.sessions (S fuel) o session w
    = (Throws e, t,
       snd (query w
              (TwoPhase.session_query
                 match feature_list_on_disk w (TwoPhase.dir o) with
                 | None => getInitializerPrompt (TwoPhase.projectSpec o)
                 | Some _ => TwoPhase.getCoderPrompt
                 end (TwoPhase.dir o))))
    /\ pauses t = []
    /\ agent_prompts t
       = [match feature_list_on_disk w (TwoPhase.dir o) with
          | None => getInitializerPrompt (TwoPhase.projectSpec o)
          | Some _ => TwoPhase.getCoderPrompt
          end].
Proof.
  intros Hle Hend.
  cbn [TwoPhase.sessions]. rewrite Hle.
  unfold bind at 1. unfold TwoPhase.session_body.
  unfold bind at 1. unfold log at 1. unfold emit at 1.
  unfold bind at 1.
  destruct (readFeatureList_returns (TwoPhase.dir o) w)
    as (tr & Hread & Hasks & Hpauses).
  rewrite Hread.
  pose proof (read_result_null w (TwoPhase.dir o)) as Hnull.
  unfold bind at 1.
  destruct (is_null (read_result w (TwoPhase.dir o))).
  - rewrite (proj1 Hnull eq_refl) in *.
    unfold bind at 1. unfold log at 1. unfold emit at 1.
    destruct (TwoPhase_runAgent_runs
                (getInitializerPrompt (TwoPhase.projectSpec o))
                (TwoPhase.dir o) w) as (t & Ht & ->).
    rewrite Hend. cbn [app].
    destruct (prints_only_quiet Ht) as (Ha & Hp & _).
    eexists. split; [reflexivity|].
    cbn [pauses agent_prompts]. rewrite pauses_app, agent_prompts_app.
    cbn [pauses agent_prompts]. rewrite Hasks, Hpauses, Ha, Hp.
    split; reflexivity.
  - destruct (feature_list_on_disk w (TwoPhase.dir o)) as [v|];
      [|discriminate (proj2 Hnull eq_refl)].
    unfold bind at 1. unfold log at 1. unfold emit at 1.
    destruct (TwoPhase_runAgent_runs TwoPhase.getCoderPrompt
                (TwoPhase.dir o) w) as (t & Ht & ->).
    rewrite Hend. cbn [app].
    destruct (prints_only_quiet Ht) as (Ha & Hp & _).
    eexists. split; [reflexivity|].
    cbn [pauses agent_prompts]. rewrite pauses_app, agent_prompts_app.
    cbn [pauses agent_prompts]. rewrite Hasks, Hpauses, Ha, Hp.
    split; reflexivity.
Qed.

End MoreTwoPhaseFacts.

(** ** More on reading the artifacts *)

Section MoreArtifactFacts.
Context {N : Numbers} {E : Engine} {W : Environment}.

(** X17.  [readFeatureList] prints its diagnostic exactly when the file
    exists and cannot be read or does not parse; an absent file, and a
    file that holds the JSON text [null], give [null] without a
    diagnostic. *)
Theorem diagnostic_iff_unreadable (dir : string) (w : world) :
  In (console_error [str "Failed to parse feature_list.json"])
     (snd (fst (readFeatureList dir w)))
  <-> existsSync w (resolve [dir; "feature_list.json"]) = true
      /\ (readFileSync w (resolve [dir; "feature_list.json"]) = None
          \/ exists content,
               readFileSync w (resolve [dir; "feature_list.json"])
               = Some content
               /\ JSON_parse content = None).
Proof.
  unfold readFeatureList, bind, fs_exists.
  destruct (existsSync w _); simpl.
  - unfold try_catch, bind, fs_read, lift, parse.
    destruct (readFileSync w _) as [content|]; simpl.
    + destruct (JSON_parse content) as [v|] eqn:Hparse; simpl.
      * split.
        -- intros [H|[H|[]]]; discriminate H.
        -- intros (_ & [H|(c & [= <-] & H)]); [discriminate H|congruence].
      * split; [|auto].
        intros _. split; [reflexivity|]. right. now exists content.
    + split; [|auto]. intros _. split; [reflexivity|now left].
  - split.
    + intros [H|[]]. discriminate H.
    + intros [H _]. discriminate H.
Qed.

(** X18.  [determinePhase] probes the feature list, reads it when it
    exists, and probes the plan only when a feature list was read; it
    probes and reads nothing else. *)
Theorem determinePhase_probes (dir : string) (w : world) :
  probes (snd (fst (determinePhase dir w)))
  = resolve [dir; "feature_list.json"]
    :: (if existsSync w (resolve [dir; "feature_list.json"])
        then [resolve [dir; "feature_list.json"]] else [])
    ++ match feature_list_on_disk w dir with
       | Some _ => [resolve [dir; "plan.md"]]
       | None => []
       end.
Proof.
  unfold determinePhase, readFeatureList, feature_list_on_disk, bind,
    fs_exists.
  destruct (existsSync w _); simpl; [|reflexivity].
  unfold try_catch, bind, fs_read, lift, parse.
  destruct (readFileSync w _) as [content|]; simpl; [|reflexivity].
  destruct (JSON_parse content) as [[]|]; simpl; try reflexivity;
    unfold planExists, fs_exists; now destruct (existsSync w _).
Qed.

(** X19.  A failing agent session never makes a session throw: when a
    session of the three-phase harness throws, its agent session had
    returned [true] and a feature list was read, and the exception is the
    one of [getProgress] on that list or, when all features pass, the one
    of the notification; and a session never ends the process. *)
Theorem session_throws_only_after_success
  (o : Options) (session : Z) (w : world) :
  (forall code, fst (fst (session_body o session w)) <> Exits code)
  /\ (forall e,
        fst (fst (session_body o session w)) = Throws e ->
        fst (fst (session_run o w)) = Returns true
        /\ exists list,
             feature_list_on_disk (snd (session_run o w)) (dir o) = Some list
             /\ (getProgress list = Throw e
                 \/ (all_passing (snd (session_run o w)) (dir o) = true
                     /\ fst (spawn (snd (session_run o w))
                               ["osascript"; "-e";
                                ("display notification "
                                 ++ quoted "Agent loop complete"
                                 ++ " with title "
                                 ++ quoted "All features passing"
                                 ++ " sound name " ++ quoted "Glass")%string])
                        = Some e))).
Proof.
  destruct (session_run_returns o w) as ([|] & Hrun).
  - assert (Hok : fst (fst (session_run o w)) = Returns true)
      by now rewrite Hrun.
    rewrite (session_body_succeeded o session w Hok).
    rewrite check_progress_runs. cbv zeta. unfold all_passing.
    destruct (feature_list_on_disk _ (dir o)) as [list|];
      [|split; [intros code|intros e]; discriminate].
    destruct (getProgress list) as [p|e'] eqn:Hprogress.
    + destruct (passing p =? total p)%nat eqn:Hequal;
        [|split; [intros code|intros e]; discriminate].
      destruct (spawn _ _) as [[e'|] w3] eqn:Hspawn; cbn [fst snd];
        (split; [intros code; discriminate|]); intros e He;
        [|discriminate].
      injection He as <-. split; [exact Hok|].
      exists list. split; [reflexivity|]. right. now split.
    + split; [intros code; discriminate|]. intros e [= <-].
      split; [exact Hok|]. exists list. split; [reflexivity|].
      left. exact Hprogress.
  - assert (Hfail : fst (fst (session_run o w)) = Returns false)
      by now rewrite Hrun.
    rewrite (session_body_failed o session w Hfail).
    split; [intros code|intros e]; discriminate.
Qed.

End MoreArtifactFacts.

(** ** Further runs in the simulated world *)

Section MoreRuns.
#[local] Existing Instance Sim.numbers.
#[local] Existing Instance Sim.engine.
#[local] Existing Instance Sim.environment.

(** Witness of X2: the second of two features comes to pass. *)
Lemma getProgress_counts_a_new_pass_witness :
  exists p,
    getProgress
      (FeatureList_value
         {| features := [Sim.feature true] ++ Sim.feature false :: [] |})
    = Ok p
    /\ getProgress
         (FeatureList_value
            {| features := [Sim.feature true] ++ Sim.feature true :: [] |})
       = Ok {| passing := S (passing p); total := total p |}.
Proof.
  apply (@getProgress_counts_a_new_pass Sim.numbers [Sim.feature true] []
           (Sim.feature false) (Sim.feature true)); reflexivity.
Defined.

(** Witness of X3: two features that pass. *)
Lemma getProgress_equal_counts_iff_witness :
  passing {| passing := 2; total := 2 |} = total {| passing := 2; total := 2 |}
  <-> Forall (fun f => passes f = true)
        (features {| features := [Sim.feature true; Sim.feature true] |}).
Proof.
  apply (@getProgress_equal_counts_iff Sim.numbers
           {| features := [Sim.feature true; Sim.feature true] |}
           {| passing := 2; total := 2 |}).
  reflexivity.
Defined.

(** Witness of X4: a listing without the marker. *)
Lemma plain_tool_result_is_shown_cut_witness :
  tool_result_display false (VStr "README.md src tests")
  = Ok "README.md src tests".
Proof.
  apply (proj1 (@plain_tool_result_is_shown_cut Sim.numbers Sim.engine
                  false "README.md src tests" (or_introl eq_refl))).
Defined.

(** Witness of X5: a nushell response with an empty output. *)
Lemma object_output_is_shown_witness :
  tool_result_display false
    (VStr (Sim.text_of (VObj [("cwd", VStr "/project");
                              ("output", VStr "")])))
  = Ok "(empty)".
Proof.
  apply (@object_output_is_shown Sim.numbers Sim.engine false
           (Sim.text_of (VObj [("cwd", VStr "/project");
                               ("output", VStr "")]))
           "" [("cwd", VStr "/project"); ("output", VStr "")]);
    reflexivity.
Defined.

(** Witness of X8: [--max-sessions 10abc]. *)
Lemma parseInt_reads_leading_digits_witness :
  parseInt "10" = Int 10
  /\ parseInt ("10" ++ String "a" "bc") = Int 10
  /\ parseInt (String "-" ("10" ++ String "a" "bc")) = Int (- 10).
Proof.
  apply (@parseInt_reads_leading_digits
           (Decimal.D1 (Decimal.D0 Decimal.Nil)) "a"%char "bc");
    [discriminate|reflexivity|reflexivity].
Defined.

(** Witness of X12: a budget of two sessions in a project where three
    sessions are ready and no feature ever passes. *)
Lemma main_stays_within_budget_witness :
  let w :=
    Sim.project []
      [(Sim.uneventful, Sim.feature_list [Sim.feature false]);
       (Sim.uneventful, Sim.feature_list [Sim.feature false]);
       (Sim.uneventful, Sim.feature_list [Sim.feature false])] "2" in
  List.length (agent_prompts (snd (fst (sessions 5 (Sim.options "2") 1 w))))
  <= Z.to_nat (2 + 1 - 1)
  /\ sessions 5 (Sim.options "2") 1 w
     = sessions (Z.to_nat 2) (Sim.options "2") 1 w
  /\ List.length (agent_prompts (snd (fst (main w)))) <= Z.to_nat 2.
Proof.
  cbv zeta.
  destruct (@main_stays_within_budget Sim.numbers Sim.engine Sim.environment
              (Sim.project []
                 [(Sim.uneventful, Sim.feature_list [Sim.feature false]);
                  (Sim.uneventful, Sim.feature_list [Sim.feature false]);
                  (Sim.uneventful, Sim.feature_list [Sim.feature false])] "2")
              {| values_dir := "/project";
                 values_max_sessions := "2";
                 values_model := "claude-opus-4-5-20251101";
                 values_verbose := false;
                 values_help := false |}
              ["todo"; "app"] 2%Z eq_refl eq_refl eq_refl)
    as (Hloop & Hfuel & Hmain).
  split; [exact (Hloop 5 (Sim.options "2") 1%Z _ eq_refl (Z.le_refl 1))|].
  split; [|exact Hmain].
  apply (Hfuel 5 (Sim.options "2") _ eq_refl). simpl. lia.
Defined.

(** Witness of X9: [agent-loop --help]. *)
Lemma help_or_no_spec_exits_witness :
  fst (fst (main {| Sim.files := [];
                    Sim.directories := ["/project"];
                    Sim.command_line :=
                      inr ({| values_dir := ".";
                              values_max_sessions := "50";
                              values_model := "claude-opus-4-5-20251101";
                              values_verbose := false;
                              values_help := true |}, []);
                    Sim.osascript := true;
                    Sim.script := [] |}))
  = Exits 0%Z.
Proof.
  rewrite (proj1 (@help_or_no_spec_exits Sim.numbers Sim.engine
                    Sim.environment
                    {| Sim.files := [];
                       Sim.directories := ["/project"];
                       Sim.command_line :=
                         inr ({| values_dir := ".";
                                 values_max_sessions := "50";
                                 values_model := "claude-opus-4-5-20251101";
                                 values_verbose := false;
                                 values_help := true |}, []);
                       Sim.osascript := true;
                       Sim.script := [] |}
                    {| values_dir := ".";
                       values_max_sessions := "50";
                       values_model := "claude-opus-4-5-20251101";
                       values_verbose := false;
                       values_help := true |} []
                    eq_refl (or_introl eq_refl))).
  reflexivity.
Defined.

(** Witness of X10: the directory [/project] is not there. *)
Lemma missing_directory_exits_witness :
  fst (fst (main {| Sim.files := [];
                    Sim.directories := [];
                    Sim.command_line := Sim.cli "3";
                    Sim.osascript := true;
                    Sim.script := [] |}))
  = Exits 1%Z.
Proof.
  rewrite (proj1 (@missing_directory_exits Sim.numbers Sim.engine
                    Sim.environment
                    {| Sim.files := [];
                       Sim.directories := [];
                       Sim.command_line := Sim.cli "3";
                       Sim.osascript := true;
                       Sim.script := [] |}
                    {| values_dir := "/project";
                       values_max_sessions := "3";
                       values_model := "claude-opus-4-5-20251101";
                       values_verbose := false;
                       values_help := false |}
                    ["todo"; "app"] eq_refl eq_refl
                    ltac:(discriminate) eq_refl)).
  reflexivity.
Defined.

(** Witness of X14: every feature passes and [osascript] is missing. *)
Lemma failed_notification_is_thrown_witness :
  exists t w',
    sessions 3 (Sim.options "3") 1
      {| Sim.files := Sim.feature_list [Sim.feature true];
         Sim.directories := ["/project"];
         Sim.command_line := Sim.cli "3";
         Sim.osascript := false;
         Sim.script := [(Sim.uneventful, Sim.feature_list [Sim.feature true])] |}
    = (Throws (ErrorInstance "Executable not found in $PATH: osascript" None),
       session_prefix (Sim.options "3") 1
         {| Sim.files := Sim.feature_list [Sim.feature true];
            Sim.directories := ["/project"];
            Sim.command_line := Sim.cli "3";
            Sim.osascript := false;
            Sim.script :=
              [(Sim.uneventful, Sim.feature_list [Sim.feature true])] |}
       ++ t ++ completion, w').
Proof.
  apply (@failed_notification_is_thrown Sim.numbers Sim.engine
           Sim.environment (Sim.options "3") 1 2
           {| Sim.files := Sim.feature_list [Sim.feature true];
              Sim.directories := ["/project"];
              Sim.command_line := Sim.cli "3";
              Sim.osascript := false;
              Sim.script :=
                [(Sim.uneventful, Sim.feature_list [Sim.feature true])] |});
    reflexivity.
Defined.

(** Witness of X15: the feature list file holds [{}]. *)
Lemma malformed_list_ends_the_loop_witness :
  fst (fst (sessions 3 (Sim.options "3") 1
              (Sim.project [("/project/feature_list.json", "{}")]
                 [(Sim.uneventful, [("/project/feature_list.json", "{}")])]
                 "3")))
  = Throws (TypeError "cannot read property length").
Proof.
  rewrite (@malformed_list_ends_the_loop Sim.numbers Sim.engine
             Sim.environment (Sim.options "3") 1 2
             (Sim.project [("/project/feature_list.json", "{}")]
                [(Sim.uneventful, [("/project/feature_list.json", "{}")])]
                "3")
             (VObj []) (TypeError "cannot read property length")
             eq_refl eq_refl eq_refl eq_refl).
  reflexivity.
Defined.

(** Witness of X16: the stream of the first session throws. *)
Lemma TwoPhase_stream_error_ends_the_run_witness :
  exists t,
    TwoPhase.sessions 3
      {| TwoPhase.projectSpec := "todo app";
         TwoPhase.dir := "/project";
         TwoPhase.maxSessions := Int 3 |} 1
      (Sim.project [] [(Sim.broken, [])] "3")
    = (Throws (ErrorInstance "connection reset" None), t,
       Sim.project [] [] "3")
    /\ pauses t = []
    /\ agent_prompts t = [getInitializerPrompt "todo app"].
Proof.
  apply (@TwoPhase_stream_error_ends_the_run Sim.numbers Sim.engine
           Sim.environment
           {| TwoPhase.projectSpec := "todo app";
              TwoPhase.dir := "/project";
              TwoPhase.maxSessions := Int 3 |} 1 2
           (Sim.project [] [(Sim.broken, [])] "3")
           (ErrorInstance "connection reset" None));
    reflexivity.
Defined.

End MoreRuns.
